(** * Dataset wrangling notebook (week1/Untitled.ipynb): model and properties

    The notebook cleans an image dataset laid out as
    [ewaste-dataset/{train,val,test}/<class>/<file>], counts the images of
    every class, and tops up the training classes with augmented copies.
    Everything it does is a sequence of directory scans, deletions and file
    creations, so the model is a file system (a finite map from paths to
    nodes), a console, and a small state-and-exception monad in which the
    notebook's functions are transcribed line by line. *)

From Stdlib Require Import Ascii.
From stdpp Require Import gmap strings list fin_maps sorting pretty.

Open Scope string_scope.
Open Scope list_scope.
Open Scope nat_scope.

(** ** Strings *)

Module Str.

(** [str.lower()], on the ASCII letters.  The other characters of a file
    name never lower to an ASCII letter, so the suffix tests below do not
    see the difference. *)
Definition lower_ascii (a : ascii) : ascii :=
  let n := Ascii.nat_of_ascii a in
  if (65 <=? n)%nat && (n <=? 90)%nat then Ascii.ascii_of_nat (n + 32) else a.

Fixpoint lower (s : string) : string :=
  match s with
  | EmptyString => EmptyString
  | String a s' => String (lower_ascii a) (lower s')
  end.

(** [s.endswith(suffix)] for one suffix. *)
Definition endswith1 (s suffix : string) : bool :=
  let n := String.length s in
  let k := String.length suffix in
  (k <=? n)%nat && String.eqb (String.substring (n - k) k s) suffix.

(** [s.endswith((x, y, ...))]: true when one of the suffixes matches. *)
Definition endswith (s : string) (suffixes : list string) : bool :=
  existsb (endswith1 s) suffixes.

End Str.

(** ** File system *)

(** A path is the list of its components; [os.path.join] adds one. *)
Abbreviation path := (list string).

Definition os_path_join (p : path) (name : string) : path := p ++ [name].

(** A node is a regular file with its bytes, or a directory. *)
Inductive node : Type :=
  | File (bytes : string)
  | Dir.

Global Instance node_eq_dec : EqDecision node.
Proof. solve_decision. Defined.

Abbreviation filesystem := (gmap path node).

(** [child_name p q] is [Some n] exactly when [q] is [p/n]. *)
Fixpoint child_name (p q : path) : option string :=
  match p, q with
  | [], [n] => Some n
  | x :: p', y :: q' => if decide (x = y) then child_name p' q' else None
  | _, _ => None
  end.

(** The entries directly below [p], by name. *)
Definition subdir (fs : filesystem) (p : path) : gmap string node :=
  map_fold (λ q nd acc,
              match child_name p q with
              | Some n => <[n := nd]> acc
              | None => acc
              end) ∅ fs.

(** The names [os.listdir] returns for a directory.  Python leaves their
    order to the operating system; here it is the order of the map. *)
Definition children (fs : filesystem) (p : path) : list string :=
  (map_to_list (subdir fs p)).*1.

(** ** The notebook's effects *)

(** The exceptions the notebook can meet.  [ImageError] stands for whatever
    the imaging library raises on bytes it cannot decode, transform or
    write. *)
Inductive exn : Type :=
  | FileNotFoundError
  | NotADirectoryError
  | IsADirectoryError
  | IndexError
  | ImageError.

(** The lines the notebook prints, one constructor per [print] call. *)
Inductive event : Type :=
  | Checking (base_path : path)
  | DeletingNonImage (fpath : path)
  | CorruptedRemoved (fpath : path)
  | Augmenting (class_path : path) (current_count target_count : nat)
  | ErrorAugmenting (img_name : string).

Record world : Type := World {
  fs : filesystem;
  console : list event
}.

(** A computation ends by returning, by an exception that nothing caught,
    or by being stopped from outside while it still runs. *)
Inductive outcome (A : Type) : Type :=
  | Return (a : A)
  | Raised (e : exn)
  | Interrupted.
Arguments Return {A} a.
Arguments Raised {A} e.
Arguments Interrupted {A}.

Definition M (A : Type) : Type := world → outcome A * world.

Definition ret {A} (a : A) : M A := λ w, (Return a, w).

Definition bind {A B} (m : M A) (k : A → M B) : M B := λ w,
  match m w with
  | (Return a, w') => k a w'
  | (Raised e, w') => (Raised e, w')
  | (Interrupted, w') => (Interrupted, w')
  end.

Definition raise {A} (e : exn) : M A := λ w, (Raised e, w).

Definition interrupt {A} : M A := λ w, (Interrupted, w).

(** [try: body / except: handler].  Every exception of the model is an
    [Exception], so the bare [except:] of the cleanup and the
    [except Exception] of the augmentation catch the same ones. *)
Definition try_except (body handler : M unit) : M unit := λ w,
  match body w with
  | (Raised _, w') => handler w'
  | r => r
  end.

Declare Scope nb_scope.
Delimit Scope nb_scope with nb.
Notation "x ← m ; k" := (bind m (λ x, k))
  (at level 20, m at level 100, k at level 200, only parsing) : nb_scope.
Notation "m ;; k" := (bind m (λ _, k))
  (at level 100, k at level 200, right associativity, only parsing) : nb_scope.
Open Scope nb_scope.

(** [for x in l: body x] *)
Fixpoint for_ {A} (l : list A) (body : A → M unit) : M unit :=
  match l with
  | [] => ret tt
  | x :: l' => body x ;; for_ l' body
  end.

(** A [for] loop that carries a value from one round to the next. *)
Fixpoint for_acc {A B} (l : list A) (body : B → A → M B) (b : B) : M B :=
  match l with
  | [] => ret b
  | x :: l' => b' ← body b x ; for_acc l' body b'
  end.

(** [[x for x in l if test x]] with a test that runs in the monad. *)
Fixpoint filter_m {A} (test : A → M bool) (l : list A) : M (list A) :=
  match l with
  | [] => ret []
  | x :: l' =>
      keep ← test x ;
      rest ← filter_m test l' ;
      ret (if keep then x :: rest else rest)
  end.

Definition print (e : event) : M unit := λ w,
  (Return tt, World (fs w) (console w ++ [e])).

Definition os_listdir (p : path) : M (list string) := λ w,
  match fs w !! p with
  | Some Dir => (Return (children (fs w) p), w)
  | Some (File _) => (Raised NotADirectoryError, w)
  | None => (Raised FileNotFoundError, w)
  end.

Definition os_path_isdir (p : path) : M bool := λ w,
  (Return (bool_decide (fs w !! p = Some Dir)), w).

Definition os_remove (p : path) : M unit := λ w,
  match fs w !! p with
  | Some (File _) => (Return tt, World (delete p (fs w)) (console w))
  | Some Dir => (Raised IsADirectoryError, w)
  | None => (Raised FileNotFoundError, w)
  end.

(** ** The imaging library *)

(** What the notebook needs to know of a file's bytes: whether
    [Image.open(p).verify()] goes through, and whether
    [Image.open(p).convert('RGB')] does. *)
Class ImageLib : Type := {
  img_verify : string → bool;
  img_decode : string → bool
}.

Section Imaging.
Context `{ImageLib}.

(** [img = Image.open(fpath); img.verify()] *)
Definition image_open_verify (fpath : path) : M unit := λ w,
  match fs w !! fpath with
  | Some (File b) => if img_verify b then (Return tt, w) else (Raised ImageError, w)
  | Some Dir => (Raised IsADirectoryError, w)
  | None => (Raised FileNotFoundError, w)
  end.

(** [Image.open(img_path).convert('RGB')]; the image is its bytes. *)
Definition image_open_convert (img_path : path) : M string := λ w,
  match fs w !! img_path with
  | Some (File b) => if img_decode b then (Return b, w) else (Raised ImageError, w)
  | Some Dir => (Raised IsADirectoryError, w)
  | None => (Raised FileNotFoundError, w)
  end.

End Imaging.

(** ** Randomness and the writer *)

(** What the transforms and [save] make of the decoded image in a round.
    [save] settles the format from the name, then opens its target for
    writing, which empties a file that is there, then encodes into it; when
    the encoding raises, it removes the target only if the call created
    it. *)
Inductive saving : Type :=
  | Saves (bytes : string)   (* the target is written, with these bytes *)
  | Refuses                  (* a transform raises, or [save] raises before
                                it opens its target, as it does on a name
                                whose extension it does not know *)
  | Breaks (part : string).  (* [save] raises after it opened its target,
                                having written [part] *)

(** One round of the augmentation loop uses three things the notebook does
    not control: the index [random.choice] draws, the number
    [random.randint] draws, and what the transforms and [save] make of the
    decoded image.  A [draw] holds them; a tape of draws drives a call, and
    a call whose tape runs out while the loop still wants a round is one
    that was stopped from outside. *)
Record draw : Type := Draw {
  pick : nat;
  number : N;
  written : saving
}.

(** [random.choice(seq)] on a non-empty [seq]. *)
Definition random_choice (seq : list string) (d : draw) : string :=
  default "" (seq !! (pick d mod length seq)).

(** [random.randint(a, b)] *)
Definition random_randint (a b : N) (d : draw) : N :=
  (a + number d mod (b - a + 1))%N.

(** [aug_img = augmentations(img); aug_img.save(p)].  Opening a directory
    for writing raises.  A save that breaks after it opened its target
    leaves no file behind where there was none, and leaves a file that was
    there with what had been written, not with the bytes it had. *)
Definition augment_and_save (d : draw) (p : path) : M unit := λ w,
  match written d with
  | Refuses => (Raised ImageError, w)
  | Saves b =>
      match fs w !! p with
      | Some Dir => (Raised IsADirectoryError, w)
      | _ => (Return tt, World (<[p := File b]> (fs w)) (console w))
      end
  | Breaks part =>
      match fs w !! p with
      | Some Dir => (Raised IsADirectoryError, w)
      | Some (File _) =>
          (Raised ImageError, World (<[p := File part]> (fs w)) (console w))
      | None => (Raised ImageError, w)
      end
  end.

(** ** The notebook *)

Definition DATASET_DIR : path := ["ewaste-dataset"].
Definition TRAIN_DIR : path := os_path_join DATASET_DIR "train".
Definition VAL_DIR : path := os_path_join DATASET_DIR "val".
Definition TEST_DIR : path := os_path_join DATASET_DIR "test".
Definition TARGET_COUNT : nat := 500.

(** Python's [sorted] on strings: ascending by code point. *)
Definition sorted (l : list string) : list string := merge_sort String.le l.

(** The suffixes both scans test a lowered file name against. *)
Definition image_suffixes : list string := ["jpg"; "jpeg"; "png"].

(** A [dict] keeps its keys in insertion order; assigning to a key that is
    already there keeps its place. *)
Fixpoint dict_set (d : list (string * nat)) (k : string) (v : nat)
  : list (string * nat) :=
  match d with
  | [] => [(k, v)]
  | (k', v') :: d' =>
      if decide (k = k') then (k, v) :: d' else (k', v') :: dict_set d' k v
  end.

Definition dict_keys (d : list (string * nat)) : list string := d.*1.

Definition list_classes (base_path : path) : M (list string) :=
  names ← os_listdir base_path ;
  dirs ← filter_m (λ d, os_path_isdir (os_path_join base_path d)) names ;
  ret (sorted dirs).

Definition count_images_in_classes (base_path : path) : M (list (string * nat)) :=
  classes ← list_classes base_path ;
  for_acc classes (λ counts cls,
    let cls_path := os_path_join base_path cls in
    files ← os_listdir cls_path ;
    ret (dict_set counts cls
           (length (filter (λ f, Str.endswith (Str.lower f) image_suffixes) files))))
    [].

Section Notebook.
Context `{ImageLib}.

(** The body of the inner loop of the cleanup, for one file name. *)
Definition clean_file (cls_path : path) (fname : string) : M unit :=
  let fpath := os_path_join cls_path fname in
  if negb (Str.endswith (Str.lower fname) image_suffixes) then
    print (DeletingNonImage fpath) ;;
    os_remove fpath
  else
    try_except (image_open_verify fpath)
               (print (CorruptedRemoved fpath) ;; os_remove fpath).

Definition remove_corrupted_and_non_images (base_path : path) : M unit :=
  print (Checking base_path) ;;
  classes ← list_classes base_path ;
  for_ classes (λ cls,
    let cls_path := os_path_join base_path cls in
    fnames ← os_listdir cls_path ;
    for_ fnames (clean_file cls_path)).

(** The name the augmented copy of [img_name] is saved under:
    [f"aug_{random.randint(10000,99999)}_{img_name}"]. *)
Definition new_name (d : draw) (img_name : string) : string :=
  "aug_" +:+ pretty (random_randint 10000 99999 d) +:+ "_" +:+ img_name.

(** The [try] block of one round of the [while] loop. *)
Definition augment_try (class_path : path) (img_name : string) (d : draw)
  : M unit :=
  let img_path := os_path_join class_path img_name in
  img ← image_open_convert img_path ;
  augment_and_save d (os_path_join class_path (new_name d img_name)).

(** One round of the [while] loop, after its test. *)
Definition augment_once (images : list string) (class_path : path) (d : draw)
  : M unit :=
  let img_name := random_choice images d in
  try_except (augment_try class_path img_name d)
             (print (ErrorAugmenting img_name)).

(** The [while] loop.  [images] is the listing taken before the loop; the
    test reads the directory again at every round.  The unused draws are
    handed back. *)
Fixpoint augment_loop (images : list string) (class_path : path)
    (target_count : nat) (tape : list draw) : M (list draw) :=
  listing ← os_listdir class_path ;
  if bool_decide (length listing < target_count) then
    match images with
    | [] => raise IndexError
    | _ :: _ =>
        match tape with
        | [] => interrupt
        | d :: tape' =>
            augment_once images class_path d ;;
            augment_loop images class_path target_count tape'
        end
    end
  else ret tape.

Definition augment_class_images (class_path : path) (target_count : nat)
    (tape : list draw) : M (list draw) :=
  images ← os_listdir class_path ;
  let current_count := length images in
  print (Augmenting class_path current_count target_count) ;;
  augment_loop images class_path target_count tape.

(** The body of the loop of step 5, for one class.  The tape of draws
    that are still unused goes in and comes out. *)
Definition balance_one (tape : list draw) (cls : string) : M (list draw) :=
  let cls_path := os_path_join TRAIN_DIR cls in
  listing ← os_listdir cls_path ;
  let current_count := length listing in
  if bool_decide (current_count < TARGET_COUNT) then
    augment_class_images cls_path TARGET_COUNT tape
  else ret tape.

(** Step 5 of the run: [for cls in train_stats: ...]. *)
Definition balance_classes (train_stats : list (string * nat))
    (tape : list draw) : M (list draw) :=
  for_acc (dict_keys train_stats) balance_one tape.

End Notebook.

(** ** Derived notions used in the statements *)

(** The class labels of a split directory, as the file system has them. *)
Definition class_names (fs : filesystem) (base_path : path) : list string :=
  sorted (filter (λ d, fs !! os_path_join base_path d = Some Dir)
                 (children fs base_path)).


(** The count [count_images_in_classes] reports for one class directory. *)
Definition image_count (fs : filesystem) (cls_path : path) : nat :=
  length (filter (λ f, Str.endswith (Str.lower f) image_suffixes)
                 (children fs cls_path)).

(** The mapping [count_images_in_classes] builds on a split directory. *)
Definition count_table (fs : filesystem) (base_path : path)
  : list (string * nat) :=
  foldl (λ d c, dict_set d c (image_count fs (os_path_join base_path c)))
        [] (class_names fs base_path).

(** ** Sample data *)

(** An imaging library for the examples: every file decodes, except the
    ones whose bytes are the word [garbage]. *)
Definition sample_lib : ImageLib :=
  {| img_verify b := negb (String.eqb b "garbage");
     img_decode b := negb (String.eqb b "garbage") |}.

(** A world with the given nodes and an empty console. *)
Definition world_of (nodes : list (path * node)) : world :=
  World (list_to_map nodes) [].

(** A small training split: two classes and a stray file beside them. *)
Definition sample_world : world :=
  world_of
    [ (DATASET_DIR, Dir);
      (TRAIN_DIR, Dir);
      (TRAIN_DIR ++ ["dog"], Dir);
      (TRAIN_DIR ++ ["cat"], Dir);
      (TRAIN_DIR ++ ["README"], File "text");
      (TRAIN_DIR ++ ["cat"; "a.jpg"], File "A");
      (TRAIN_DIR ++ ["cat"; "b.PNG"], File "garbage");
      (TRAIN_DIR ++ ["cat"; "notes.txt"], File "N");
      (TRAIN_DIR ++ ["dog"; "d.jpeg"], File "D") ].

Section Cleanup_notions.
Context `{ImageLib}.

(** The test the cleanup puts a file through: the suffix of its lowered
    name, then the verification of its bytes. *)
Definition keeps (fname bytes : string) : bool :=
  Str.endswith (Str.lower fname) image_suffixes && img_verify bytes.

(** [fs'] is [fs] with some files removed, each of them one that fails
    the test. *)
Definition only_rejects_removed (fs fs' : filesystem) : Prop :=
  ∀ q, fs' !! q = fs !! q ∨
       (fs' !! q = None ∧
        ∃ cp f b, q = os_path_join cp f ∧ fs !! q = Some (File b) ∧
                  keeps f b = false).

(** Every entry of the directory [cp] is a file that passes the test. *)
Definition all_kept (fs : filesystem) (cp : path) : Prop :=
  ∀ f x, fs !! os_path_join cp f = Some x →
         ∃ b, x = File b ∧ keeps f b = true.

End Cleanup_notions.

(** The spec's wording of the name test: the lowered name ends in one of
    the extensions [.jpg], [.jpeg], [.png], dot included. *)
Definition has_accepted_extension (fname : string) : bool :=
  Str.endswith (Str.lower fname) [".jpg"; ".jpeg"; ".png"].

(** A class directory holding a sound image whose name ends in [jpg]
    without a dot before it. *)
Definition dotless_world : world :=
  world_of
    [ (DATASET_DIR, Dir);
      (TRAIN_DIR, Dir);
      (TRAIN_DIR ++ ["cat"], Dir);
      (TRAIN_DIR ++ ["cat"; "a.jpg"], File "A");
      (TRAIN_DIR ++ ["cat"; "scanjpg"], File "S") ].

(** ** Notions for the augmentation *)

(** The augmented-file naming convention: [aug_<number>_<original>]. *)
Definition aug_name (n : N) (orig : string) : string :=
  "aug_" +:+ pretty n +:+ "_" +:+ orig.

(** [name] is an augmented name of one of [images], with a number
    [randint(10000, 99999)] can draw. *)
Definition aug_name_of (images : list string) (name : string) : Prop :=
  ∃ n src, (10000 ≤ n ≤ 99999)%N ∧ src ∈ images ∧ name = aug_name n src.

(** [fs'] is [fs] with files written under augmented names of [images] in
    the directory [cp], and nothing else touched: a path either holds what
    it held, or is such a name and holds a file. *)
Definition only_augmented (cp : path) (images : list string)
    (fs fs' : filesystem) : Prop :=
  ∀ q, fs' !! q = fs !! q ∨
       ∃ name b, aug_name_of images name ∧ q = os_path_join cp name ∧
                 fs' !! q = Some (File b) ∧ fs !! q ≠ Some Dir.

(** Five decimal digits. *)
Definition five_digits (s : string) : bool :=
  match s with
  | String a (String b (String c (String d (String e EmptyString)))) =>
      forallb (λ x, bool_decide (is_Some (Ascii.is_nat x))) [a; b; c; d; e]
  | _ => false
  end.

(** [name] reads [aug_], five digits, [_], [orig]. *)
Definition matches_aug_pattern (name orig : string) : bool :=
  String.eqb (String.substring 0 4 name) "aug_" &&
  five_digits (String.substring 4 5 name) &&
  String.eqb (String.substring 9 1 name) "_" &&
  String.eqb (String.substring 10 (String.length name - 10) name) orig.

(** A class directory with two sound images and room for more. *)
Definition pair_world : world :=
  world_of
    [ (DATASET_DIR, Dir);
      (TRAIN_DIR, Dir);
      (TRAIN_DIR ++ ["cat"], Dir);
      (TRAIN_DIR ++ ["cat"; "a.jpg"], File "A");
      (TRAIN_DIR ++ ["cat"; "b.jpg"], File "B") ].

(** A tape whose second draw fails in a transform. *)
Definition pair_tape : list draw :=
  [ Draw 0 0 (Saves "first");
    Draw 1 7 Refuses;
    Draw 1 1 (Saves "second");
    Draw 0 2 (Saves "unused") ].

(** A training split whose only class directory is empty. *)
Definition empty_class_world : world :=
  world_of
    [ (DATASET_DIR, Dir);
      (TRAIN_DIR, Dir);
      (TRAIN_DIR ++ ["cat"], Dir) ].

(** [name] has the shape of an augmented name, whatever its source. *)
Definition aug_shaped (name : string) : Prop :=
  ∃ n src, (10000 ≤ n ≤ 99999)%N ∧ name = aug_name n src.

(** The spec's data model tells an original file from an augmented one by
    the prefix of its name. *)
Definition is_original (name : string) : bool :=
  negb (String.eqb (String.substring 0 4 name) "aug_").

(** [fs'] is [fs] with files written under augmented names in class
    directories of the training split, and nothing else touched. *)
Definition only_train_augmented (fs fs' : filesystem) : Prop :=
  ∀ q, fs' !! q = fs !! q ∨
       ∃ cls name b, aug_shaped name ∧
         q = os_path_join (os_path_join TRAIN_DIR cls) name ∧
         fs' !! q = Some (File b) ∧ fs !! q ≠ Some Dir.

(** The position of [x] in [l], for tapes that must pick a given file. *)
Definition position_of (x : string) (l : list string) : nat :=
  from_option fst 0 (list_find (λ y, y = x) l).

(** A training class one file short of the target of step 5: [a.jpg], a
    file that already bears the augmented name [aug_10000_a.jpg], and 497
    more images. *)
Definition crowded_world : world :=
  world_of
    ([ (DATASET_DIR, Dir);
       (TRAIN_DIR, Dir);
       (TRAIN_DIR ++ ["cat"], Dir);
       (TRAIN_DIR ++ ["cat"; "a.jpg"], File "A");
       (TRAIN_DIR ++ ["cat"; "aug_10000_a.jpg"], File "OLD") ]
     ++ map (λ k, (TRAIN_DIR ++ ["cat"; "img_" +:+ pretty k +:+ ".jpg"], File "I"))
            (seq 0 497)).

(** Two draws that both pick [a.jpg]; the first draws the number 10000. *)
Definition crowded_tape : list draw :=
  let k := position_of "a.jpg"
             (children (fs crowded_world) (TRAIN_DIR ++ ["cat"])) in
  [ Draw k 0 (Saves "NEW"); Draw k 1 (Saves "NEW2") ].

(** ** The augmentation as the spec words it *)

Section Rereading.
Context `{ImageLib}.

(** The loop of the spec's section 4.5: every round picks its source
    from the listing the round has just read. *)
Fixpoint augment_loop_rereading (class_path : path) (target_count : nat)
    (tape : list draw) : M (list draw) :=
  listing ← os_listdir class_path ;
  if bool_decide (length listing < target_count) then
    match listing with
    | [] => raise IndexError
    | _ :: _ =>
        match tape with
        | [] => interrupt
        | d :: tape' =>
            augment_once listing class_path d ;;
            augment_loop_rereading class_path target_count tape'
        end
    end
  else ret tape.

Definition augment_class_images_rereading (class_path : path)
    (target_count : nat) (tape : list draw) : M (list draw) :=
  images ← os_listdir class_path ;
  print (Augmenting class_path (length images) target_count) ;;
  augment_loop_rereading class_path target_count tape.

End Rereading.

(** A class directory with a single image. *)
Definition single_world : world :=
  world_of
    [ (DATASET_DIR, Dir);
      (TRAIN_DIR, Dir);
      (TRAIN_DIR ++ ["cat"], Dir);
      (TRAIN_DIR ++ ["cat"; "a.jpg"], File "A") ].

(** Two draws with the index 0 and the numbers 10000 and 10001. *)
Definition single_tape : list draw :=
  [ Draw 0 0 (Saves "X"); Draw 0 1 (Saves "Y") ].

(** Three sound [.jpg] files with plain names. *)
Definition trio_world : world :=
  world_of
    [ (DATASET_DIR, Dir);
      (TRAIN_DIR, Dir);
      (TRAIN_DIR ++ ["cat"], Dir);
      (TRAIN_DIR ++ ["cat"; "a.jpg"], File "A");
      (TRAIN_DIR ++ ["cat"; "b.jpg"], File "B");
      (TRAIN_DIR ++ ["cat"; "c.jpg"], File "C") ].

Definition trio_tape : list draw :=
  [ Draw 0 0 (Saves "P"); Draw 1 1 (Saves "Q"); Draw 2 2 (Saves "R") ].

(** A draw that picks the first name of the listing and the number 10000;
    a tape that repeats it saves every round under one and the same name. *)
Definition same_draw : draw := Draw 0 0 (Saves "P").

(** A draw whose transform raises. *)
Definition failing_draw : draw := Draw 0 0 Refuses.



(** ** Notions for the further properties *)

(** [d.get(k)]: the value a mapping holds for a key, if any. *)
Fixpoint dict_get (d : list (string * nat)) (k : string) : option nat :=
  match d with
  | [] => None
  | (k', v) :: d' => if decide (k = k') then Some v else dict_get d' k
  end.

(** The line the cleanup prints when it removes the file [fname]. *)
Definition removal_line (fname : string) (fpath : path) : event :=
  if Str.endswith (Str.lower fname) image_suffixes
  then CorruptedRemoved fpath
  else DeletingNonImage fpath.

(** The line a cleanup prints for the name [f] of the class directory
    [cls_path], if any: the removal line of a file that fails the test. *)
Definition removal_of `{ImageLib} (fs : filesystem) (cls_path : path)
    (f : string) : list event :=
  match fs !! os_path_join cls_path f with
  | Some (File b) =>
      if keeps f b then [] else [removal_line f (os_path_join cls_path f)]
  | _ => []
  end.

(** The lines a cleanup of the split [base] prints after its opening line,
    read off the file system it starts from: class by class in sorted
    order and, in a class, name by name in the order of the listing, the
    line of every file that fails the test. *)
Definition removal_lines `{ImageLib} (fs : filesystem) (base : path)
  : list event :=
  flat_map (λ cls,
              flat_map (removal_of fs (os_path_join base cls))
                       (children fs (os_path_join base cls)))
           (class_names fs base).

(** [fs'] is [fs] with some files of class directories of the split
    [base] removed: nothing else differs, and nothing is new. *)
Definition only_class_files_removed (base : path) (fs fs' : filesystem) : Prop :=
  ∀ q, fs' !! q = fs !! q ∨
       (fs' !! q = None ∧
        ∃ cls f b, q = os_path_join (os_path_join base cls) f ∧
                   fs !! os_path_join base cls = Some Dir ∧
                   fs !! q = Some (File b)).

(** [fs'] is [fs] with some files removed, all at paths that satisfy [P]. *)
Definition only_files_removed_at (P : path → Prop) (fs fs' : filesystem) : Prop :=
  ∀ q, fs' !! q = fs !! q ∨
       (fs' !! q = None ∧ P q ∧ ∃ b, fs !! q = Some (File b)).

(** A class directory of the split [base] holds a directory of its own. *)
Definition has_nested_directory (base : path) (fs : filesystem) : Prop :=
  ∃ cls f, fs !! os_path_join base cls = Some Dir ∧
           fs !! os_path_join (os_path_join base cls) f = Some Dir.

(** A class directory with a directory inside it, after a file that the
    cleanup removes. *)
Definition nested_world : world :=
  world_of
    [ (DATASET_DIR, Dir);
      (TRAIN_DIR, Dir);
      (TRAIN_DIR ++ ["cat"], Dir);
      (TRAIN_DIR ++ ["cat"; "a.txt"], File "T");
      (TRAIN_DIR ++ ["cat"; "more"], Dir);
      (VAL_DIR, Dir);
      (VAL_DIR ++ ["cat"], Dir);
      (VAL_DIR ++ ["cat"; "v.txt"], File "V") ].


(** [fs'] is [fs] with files written in training class directories that
    listed fewer entries than the target, and nothing else touched. *)
Definition only_short_classes_augmented (fs fs' : filesystem) : Prop :=
  ∀ q, fs' !! q = fs !! q ∨
       ∃ cls name b,
         length (children fs (os_path_join TRAIN_DIR cls)) < TARGET_COUNT ∧
         q = os_path_join (os_path_join TRAIN_DIR cls) name ∧
         fs' !! q = Some (File b).

(** Every name the directory [cp] lists passes the suffix test. *)
Definition all_named (fs : filesystem) (cp : path) : Prop :=
  ∀ f, is_Some (fs !! os_path_join cp f) →
       Str.endswith (Str.lower f) image_suffixes = true.

(** A training split with a class that is full and a class that is not. *)
Definition mixed_world : world :=
  world_of
    ([ (DATASET_DIR, Dir);
       (TRAIN_DIR, Dir);
       (TRAIN_DIR ++ ["cat"], Dir);
       (TRAIN_DIR ++ ["cat"; "a.jpg"], File "A");
       (TRAIN_DIR ++ ["dog"], Dir) ]
     ++ map (λ k, (TRAIN_DIR ++ ["dog"; "img_" +:+ pretty k +:+ ".jpg"], File "I"))
            (seq 0 500)).

(** Step 1 of the run: the cleanup of the three splits, one after the
    other. *)
Definition clean_all_splits `{ImageLib} : M unit :=
  remove_corrupted_and_non_images TRAIN_DIR ;;
  remove_corrupted_and_non_images VAL_DIR ;;
  remove_corrupted_and_non_images TEST_DIR.

(** A dataset with its three splits. *)
Definition three_split_world : world :=
  world_of
    [ (DATASET_DIR, Dir);
      (TRAIN_DIR, Dir);
      (TRAIN_DIR ++ ["cat"], Dir);
      (TRAIN_DIR ++ ["cat"; "a.jpg"], File "A");
      (TRAIN_DIR ++ ["cat"; "a.txt"], File "T");
      (VAL_DIR, Dir);
      (VAL_DIR ++ ["cat"], Dir);
      (VAL_DIR ++ ["cat"; "v.png"], File "garbage");
      (VAL_DIR ++ ["cat"; "w.png"], File "W");
      (TEST_DIR, Dir);
      (TEST_DIR ++ ["cat"], Dir);
      (TEST_DIR ++ ["cat"; "t.jpeg"], File "T") ].

(** [crowded_world] with a validation and a test split beside it. *)
Definition crowded_dataset : world :=
  World (<[VAL_DIR := Dir]> (<[TEST_DIR := Dir]> (fs crowded_world))) [].
(** * Properties *)

(** Closed goals about the sample worlds are settled by evaluation. *)
Ltac evaluate :=
  vm_compute; repeat split; try first [reflexivity | discriminate | lia].

(** The same for a decidable goal that is not an equation. *)
Ltac evaluate_decision := apply (bool_decide_unpack _); vm_compute; exact I.

(** ** The file system *)

Lemma child_name_Some p q n : child_name p q = Some n ↔ q = p ++ [n].
Proof.
  revert q. induction p as [|x p IH]; intros q; simpl.
  - destruct q as [|y [|z q]]; split; intros Hq; simplify_eq; done.
  - destruct q as [|y q]; [split; intros; simplify_eq|].
    case_decide as Hxy.
    + subst y. rewrite IH. split; intros; simplify_eq; done.
    + split; intros; simplify_eq.
Qed.

Lemma lookup_subdir (fs : filesystem) p n :
  subdir fs p !! n = fs !! os_path_join p n.
Proof.
  unfold subdir, os_path_join.
  apply (map_fold_weak_ind (λ acc m, acc !! n = m !! (p ++ [n]))).
  - by rewrite !lookup_empty.
  - intros q nd m acc Hq IH.
    destruct (child_name p q) as [n'|] eqn:Hc.
    + apply child_name_Some in Hc as ->.
      destruct (decide (n' = n)) as [->|Hne].
      * by rewrite !lookup_insert_eq.
      * rewrite !lookup_insert_ne; [done| |done].
        intros ?; simplify_list_eq; done.
    + rewrite lookup_insert_ne; [done|].
      intros ->. by rewrite (proj2 (child_name_Some p _ n)) in Hc.
Qed.

Lemma elem_of_children (fs : filesystem) p n :
  n ∈ children fs p ↔ is_Some (fs !! os_path_join p n).
Proof.
  unfold children. rewrite <-lookup_subdir, list_elem_of_fmap. split.
  - intros [[n' nd] [-> Hin]]. apply elem_of_map_to_list in Hin. by exists nd.
  - intros [nd Hnd]. exists (n, nd). split; [done|]. by apply elem_of_map_to_list.
Qed.

Lemma NoDup_children (fs : filesystem) p : NoDup (children fs p).
Proof. apply NoDup_fst_map_to_list. Qed.

Lemma length_children (fs : filesystem) p :
  length (children fs p) = size (subdir fs p).
Proof. unfold children. by rewrite length_fmap, length_map_to_list. Qed.

Lemma subdir_insert_child (fs : filesystem) p n nd :
  subdir (<[os_path_join p n := nd]> fs) p = <[n := nd]> (subdir fs p).
Proof.
  apply map_eq; intros n'. rewrite lookup_subdir.
  destruct (decide (n = n')) as [->|Hne].
  - by rewrite !lookup_insert_eq.
  - rewrite !lookup_insert_ne, ?lookup_subdir; [done..|].
    unfold os_path_join. intros ?; simplify_list_eq; done.
Qed.

(** Two file systems that agree below [p] list [p] alike. *)
Lemma subdir_ext (fs1 fs2 : filesystem) p :
  (∀ n, fs1 !! os_path_join p n = fs2 !! os_path_join p n) →
  subdir fs1 p = subdir fs2 p.
Proof. intros Heq. apply map_eq; intros n. by rewrite !lookup_subdir. Qed.

Lemma children_ext (fs1 fs2 : filesystem) p :
  (∀ n, fs1 !! os_path_join p n = fs2 !! os_path_join p n) →
  children fs1 p = children fs2 p.
Proof. intros Heq. unfold children. by rewrite (subdir_ext fs1 fs2 p). Qed.

Lemma os_path_join_inj p1 n1 p2 n2 :
  os_path_join p1 n1 = os_path_join p2 n2 → p1 = p2 ∧ n1 = n2.
Proof. unfold os_path_join. intros ?; simplify_list_eq; done. Qed.

Lemma os_path_join_ne_self p n : os_path_join p n ≠ p.
Proof.
  unfold os_path_join. intros Heq.
  apply (f_equal length) in Heq. rewrite length_app in Heq. simpl in Heq. lia.
Qed.

(** ** The monad and the primitives *)

Lemma bind_Return {A B} (m : M A) (k : A → M B) w a w' :
  m w = (Return a, w') → bind m k w = k a w'.
Proof. unfold bind. by intros ->. Qed.

Lemma bind_Return_inv {A B} (m : M A) (k : A → M B) w b w2 :
  bind m k w = (Return b, w2) →
  ∃ a w1, m w = (Return a, w1) ∧ k a w1 = (Return b, w2).
Proof.
  unfold bind. destruct (m w) as [[a|e|] w1]; intros Hk; simplify_eq. eauto.
Qed.

(** A run is known by its outcome; the world it leaves is then its own
    second component.  This keeps whole file systems out of the goals that
    are settled by evaluation. *)
Lemma run_outcome {A} (run : outcome A * world) (r : outcome A) :
  run.1 = r → run = (r, run.2).
Proof. destruct run as [r' w']. simpl. by intros ->. Qed.

Ltac evaluate_run := apply run_outcome; vm_compute; reflexivity.

Lemma os_listdir_Dir p w :
  fs w !! p = Some Dir → os_listdir p w = (Return (children (fs w) p), w).
Proof. unfold os_listdir. by intros ->. Qed.

Lemma os_listdir_Return p w l w' :
  os_listdir p w = (Return l, w') →
  fs w !! p = Some Dir ∧ l = children (fs w) p ∧ w' = w.
Proof.
  unfold os_listdir. destruct (fs w !! p) as [[b|]|]; intros; simplify_eq; done.
Qed.

(** Reading never changes the world. *)
Lemma os_listdir_frame p w : (os_listdir p w).2 = w.
Proof. unfold os_listdir. by destruct (fs w !! p) as [[b|]|]. Qed.

Lemma filter_m_isdir base l w :
  filter_m (λ d, os_path_isdir (os_path_join base d)) l w =
  (Return (filter (λ d, fs w !! os_path_join base d = Some Dir) l), w).
Proof.
  induction l as [|d l IH]; [done|]. simpl.
  unfold bind at 1. unfold os_path_isdir at 1.
  unfold bind at 1. rewrite IH. unfold ret.
  rewrite filter_cons. by case_bool_decide; case_decide.
Qed.

Lemma list_classes_Dir base w :
  fs w !! base = Some Dir →
  list_classes base w = (Return (class_names (fs w) base), w).
Proof.
  intros Hb. unfold list_classes.
  rewrite (bind_Return _ _ _ _ _ (os_listdir_Dir _ _ Hb)).
  by rewrite (bind_Return _ _ _ _ _ (filter_m_isdir _ _ _)).
Qed.

Lemma list_classes_Return base w l w' :
  list_classes base w = (Return l, w') →
  fs w !! base = Some Dir ∧ l = class_names (fs w) base ∧ w' = w.
Proof.
  intros Hl. unfold list_classes in Hl.
  apply bind_Return_inv in Hl as (names & w1 & Hnames & Hl).
  apply os_listdir_Return in Hnames as (Hb & -> & ->).
  rewrite (bind_Return _ _ _ _ _ (filter_m_isdir _ _ _)) in Hl.
  unfold ret in Hl. by simplify_eq.
Qed.

Lemma elem_of_class_names (fs : filesystem) base c :
  c ∈ class_names fs base ↔ fs !! os_path_join base c = Some Dir.
Proof.
  unfold class_names, sorted. rewrite merge_sort_Permutation.
  rewrite list_elem_of_filter, elem_of_children. split; [by intros [? _]|].
  intros Hc. by rewrite Hc.
Qed.

Lemma NoDup_class_names (fs : filesystem) base : NoDup (class_names fs base).
Proof.
  unfold class_names, sorted. rewrite merge_sort_Permutation.
  apply NoDup_filter, NoDup_children.
Qed.

Lemma Sorted_class_names (fs : filesystem) base :
  StronglySorted String.le (class_names fs base).
Proof. apply (StronglySorted_merge_sort _). Qed.

(** ** Statistics collection *)

Lemma dict_keys_set_fresh d k v :
  k ∉ dict_keys d → dict_keys (dict_set d k v) = dict_keys d ++ [k].
Proof.
  unfold dict_keys. induction d as [|[k' v'] d IH]; intros Hk; [done|].
  rewrite fmap_cons in Hk. apply not_elem_of_cons in Hk as [Hne Hk].
  simpl. case_decide; [done|]. rewrite !fmap_cons, IH by done. done.
Qed.

Lemma dict_keys_foldl (f : string → nat) classes acc :
  NoDup (dict_keys acc ++ classes) →
  dict_keys (foldl (λ d c, dict_set d c (f c)) acc classes) =
  dict_keys acc ++ classes.
Proof.
  revert acc. induction classes as [|c classes IH]; intros acc Hnd; simpl.
  - by rewrite app_nil_r.
  - rewrite IH.
    + rewrite dict_keys_set_fresh, <-app_assoc; [done|].
      apply NoDup_app in Hnd as (_ & Hdisj & _). intros Hin.
      apply (Hdisj c Hin). by left.
    + rewrite dict_keys_set_fresh, <-app_assoc; [done|].
      apply NoDup_app in Hnd as (_ & Hdisj & _). intros Hin.
      apply (Hdisj c Hin). by left.
Qed.

Lemma count_loop base w classes acc :
  (∀ c, c ∈ classes → fs w !! os_path_join base c = Some Dir) →
  for_acc classes (λ counts cls,
    let cls_path := os_path_join base cls in
    files ← os_listdir cls_path ;
    ret (dict_set counts cls
           (length (filter (λ f, Str.endswith (Str.lower f) image_suffixes) files))))
    acc w =
  (Return (foldl (λ d c, dict_set d c (image_count (fs w) (os_path_join base c)))
                 acc classes), w).
Proof.
  revert acc. induction classes as [|c classes IH]; intros acc Hdir; [done|].
  simpl. unfold bind at 1. unfold bind at 1.
  rewrite os_listdir_Dir by (apply Hdir; by left).
  unfold ret at 1. rewrite IH; [done|].
  intros c' Hc'. apply Hdir. by right.
Qed.

Lemma count_images_Dir base w :
  fs w !! base = Some Dir →
  count_images_in_classes base w = (Return (count_table (fs w) base), w).
Proof.
  intros Hb. unfold count_images_in_classes.
  rewrite (bind_Return _ _ _ _ _ (list_classes_Dir _ _ Hb)).
  by rewrite count_loop by (intros c; apply elem_of_class_names).
Qed.

Lemma dict_keys_count_table (fs0 : filesystem) base :
  dict_keys (count_table fs0 base) = class_names fs0 base.
Proof.
  unfold count_table. rewrite dict_keys_foldl; [done|]. apply NoDup_class_names.
Qed.

Lemma count_images_Return base w counts w' :
  count_images_in_classes base w = (Return counts, w') →
  fs w !! base = Some Dir ∧ counts = count_table (fs w) base ∧ w' = w.
Proof.
  intros Hrun.
  assert (fs w !! base = Some Dir) as Hb.
  { unfold count_images_in_classes in Hrun.
    apply bind_Return_inv in Hrun as (l & w1 & Hl & _).
    by apply list_classes_Return in Hl as [? _]. }
  rewrite count_images_Dir in Hrun by done. by simplify_eq.
Qed.

Lemma count_images_frame base w : (count_images_in_classes base w).2 = w.
Proof.
  destruct (fs w !! base) as [[b|]|] eqn:Hb.
  - unfold count_images_in_classes, bind, list_classes, bind, os_listdir.
    by rewrite Hb.
  - by rewrite count_images_Dir.
  - unfold count_images_in_classes, bind, list_classes, bind, os_listdir.
    by rewrite Hb.
Qed.

(** C5. Statistics collection reads and never writes: whatever it does,
    the world it leaves is the world it found.  On a split directory it
    returns a count mapping whose keys, in the mapping's own order, are the
    names of the subdirectories of the split directory in ascending order:
    sorted, without repetition, and a name is a key exactly when it names a
    subdirectory. *)
Theorem count_images_keys (base : path) (w : world) :
  (count_images_in_classes base w).2 = w ∧
  (fs w !! base = Some Dir →
   ∃ counts, (count_images_in_classes base w).1 = Return counts ∧
     dict_keys counts = class_names (fs w) base ∧
     StronglySorted String.le (dict_keys counts) ∧
     NoDup (dict_keys counts) ∧
     ∀ c, c ∈ dict_keys counts ↔ fs w !! os_path_join base c = Some Dir).
Proof.
  split; [apply count_images_frame|].
  intros Hb. exists (count_table (fs w) base).
  rewrite count_images_Dir, dict_keys_count_table by done.
  split_and!; [done..| | |].
  - apply Sorted_class_names.
  - apply NoDup_class_names.
  - intros c. apply elem_of_class_names.
Qed.

Lemma count_images_keys_witness :
  ∃ counts, (count_images_in_classes TRAIN_DIR sample_world).1 = Return counts ∧
    dict_keys counts = ["cat"; "dog"].
Proof.
  destruct (count_images_keys TRAIN_DIR sample_world) as [_ Hkeys].
  destruct Hkeys as (counts & Hrun & Hk & _); [evaluate|].
  exists counts. split; [done|]. rewrite Hk. evaluate.
Defined.

(** ** Cleanup *)

Section Cleanup.
Context `{ImageLib}.

Lemma only_rejects_removed_refl (fs0 : filesystem) :
  only_rejects_removed fs0 fs0.
Proof. intros q. by left. Qed.

Lemma only_rejects_removed_trans (fs1 fs2 fs3 : filesystem) :
  only_rejects_removed fs1 fs2 → only_rejects_removed fs2 fs3 →
  only_rejects_removed fs1 fs3.
Proof.
  intros H12 H23 q.
  destruct (H23 q) as [Heq|(Hnone & cp & f & b & -> & Hq & Hk)].
  - rewrite Heq. apply H12.
  - right. split; [done|]. exists cp, f, b. split; [done|]. split; [|done].
    destruct (H12 (os_path_join cp f)) as [Heq|[Hnone' _]]; congruence.
Qed.

Lemma only_rejects_removed_Some (fs1 fs2 : filesystem) q x :
  only_rejects_removed fs1 fs2 → fs2 !! q = Some x → fs1 !! q = Some x.
Proof. intros H12 Hq. destruct (H12 q) as [Heq|[Hnone _]]; congruence. Qed.

Lemma only_rejects_removed_Dir (fs1 fs2 : filesystem) q :
  only_rejects_removed fs1 fs2 → fs1 !! q = Some Dir → fs2 !! q = Some Dir.
Proof.
  intros H12 Hq.
  destruct (H12 q) as [Heq|(_ & cp & f & b & _ & Hq' & _)]; congruence.
Qed.

Lemma all_kept_mono (fs1 fs2 : filesystem) cp :
  only_rejects_removed fs1 fs2 → all_kept fs1 cp → all_kept fs2 cp.
Proof.
  intros H12 Hk f x Hx. apply (Hk f x).
  by apply (only_rejects_removed_Some fs1 fs2).
Qed.

(** What one round of the inner loop does, told by the node it meets. *)
Lemma clean_file_run cls_path fname w :
  clean_file cls_path fname w =
  match fs w !! os_path_join cls_path fname with
  | Some (File b) =>
      if keeps fname b then (Return tt, w)
      else (Return tt,
            World (delete (os_path_join cls_path fname) (fs w))
                  (console w ++
                     [if Str.endswith (Str.lower fname) image_suffixes
                      then CorruptedRemoved (os_path_join cls_path fname)
                      else DeletingNonImage (os_path_join cls_path fname)]))
  | Some Dir =>
      (Raised IsADirectoryError,
       World (fs w)
             (console w ++
                [if Str.endswith (Str.lower fname) image_suffixes
                 then CorruptedRemoved (os_path_join cls_path fname)
                 else DeletingNonImage (os_path_join cls_path fname)]))
  | None =>
      (Raised FileNotFoundError,
       World (fs w)
             (console w ++
                [if Str.endswith (Str.lower fname) image_suffixes
                 then CorruptedRemoved (os_path_join cls_path fname)
                 else DeletingNonImage (os_path_join cls_path fname)]))
  end.
Proof.
  unfold clean_file, keeps.
  destruct (Str.endswith (Str.lower fname) image_suffixes); simpl.
  - unfold try_except, image_open_verify.
    destruct (fs w !! os_path_join cls_path fname) as [[b|]|] eqn:Hq.
    + destruct (img_verify b); [done|].
      unfold bind, print, os_remove. simpl. by rewrite Hq.
    + unfold bind, print, os_remove. simpl. by rewrite Hq.
    + unfold bind, print, os_remove. simpl. by rewrite Hq.
  - unfold bind, print, os_remove. simpl.
    by destruct (fs w !! os_path_join cls_path fname) as [[b|]|] eqn:Hq.
Qed.

Lemma clean_file_Return cls_path fname w w' :
  clean_file cls_path fname w = (Return tt, w') →
  only_rejects_removed (fs w) (fs w') ∧
  ∀ x, fs w' !! os_path_join cls_path fname = Some x →
       ∃ b, x = File b ∧ keeps fname b = true.
Proof.
  rewrite clean_file_run.
  destruct (fs w !! os_path_join cls_path fname) as [[b|]|] eqn:Hq;
    [|intros; simplify_eq..].
  destruct (keeps fname b) eqn:Hk; intros; simplify_eq; simpl.
  - split; [apply only_rejects_removed_refl|].
    intros x Hx. exists b. split; congruence.
  - split.
    + intros q. destruct (decide (q = os_path_join cls_path fname)) as [->|Hne].
      * right. rewrite lookup_delete_eq. split; [done|]. by exists cls_path, fname, b.
      * left. by rewrite lookup_delete_ne.
    + intros x. by rewrite lookup_delete_eq.
Qed.

(** The inner loop, over the names [fnames] of one class directory. *)
Lemma clean_files_Return cls_path fnames w w' :
  for_ fnames (clean_file cls_path) w = (Return tt, w') →
  only_rejects_removed (fs w) (fs w') ∧
  ∀ f x, f ∈ fnames → fs w' !! os_path_join cls_path f = Some x →
         ∃ b, x = File b ∧ keeps f b = true.
Proof.
  revert w. induction fnames as [|f0 fnames IH]; intros w Hrun; simpl in Hrun.
  - unfold ret in Hrun. simplify_eq. split; [apply only_rejects_removed_refl|].
    intros f x Hin. by apply elem_of_nil in Hin.
  - apply bind_Return_inv in Hrun as ([] & w1 & Hone & Hrest).
    apply clean_file_Return in Hone as [H01 Hf0].
    apply IH in Hrest as [H1 Hrest].
    split; [by eapply only_rejects_removed_trans|].
    intros f x Hin Hx. apply elem_of_cons in Hin as [->|Hin]; [|by eauto].
    apply Hf0. by apply (only_rejects_removed_Some (fs w1) (fs w')).
Qed.

(** The body of the outer loop leaves the class directory clean. *)
Lemma clean_class_Return base cls w w' :
  (fnames ← os_listdir (os_path_join base cls) ;
   for_ fnames (clean_file (os_path_join base cls))) w = (Return tt, w') →
  only_rejects_removed (fs w) (fs w') ∧ all_kept (fs w') (os_path_join base cls).
Proof.
  intros Hrun. apply bind_Return_inv in Hrun as (fnames & w1 & Hls & Hrun).
  apply os_listdir_Return in Hls as (Hdir & -> & ->).
  apply clean_files_Return in Hrun as [Hrm Hkept].
  split; [done|]. intros f x Hx. apply (Hkept f x); [|done].
  apply elem_of_children. exists x.
  by apply (only_rejects_removed_Some (fs w) (fs w')).
Qed.

Lemma clean_classes_Return base classes w w' :
  for_ classes (λ cls,
    let cls_path := os_path_join base cls in
    fnames ← os_listdir cls_path ;
    for_ fnames (clean_file cls_path)) w = (Return tt, w') →
  only_rejects_removed (fs w) (fs w') ∧
  ∀ cls, cls ∈ classes → all_kept (fs w') (os_path_join base cls).
Proof.
  revert w. induction classes as [|c classes IH]; intros w Hrun; simpl in Hrun.
  - unfold ret in Hrun. simplify_eq. split; [apply only_rejects_removed_refl|].
    intros cls Hin. by apply elem_of_nil in Hin.
  - apply bind_Return_inv in Hrun as ([] & w1 & Hone & Hrest).
    apply clean_class_Return in Hone as [H01 Hc].
    apply IH in Hrest as [H1 Hrest].
    split; [by eapply only_rejects_removed_trans|].
    intros cls Hin. apply elem_of_cons in Hin as [->|Hin]; [|by eauto].
    by apply (all_kept_mono (fs w1)).
Qed.

End Cleanup.

Section Cleanup_total.
Context `{ImageLib}.

Lemma clean_files_returns cls_path fnames w :
  NoDup fnames →
  (∀ f, f ∈ fnames → ∃ b, fs w !! os_path_join cls_path f = Some (File b)) →
  ∃ w', for_ fnames (clean_file cls_path) w = (Return tt, w').
Proof.
  revert w. induction fnames as [|f0 fnames IH]; intros w Hnd Hfiles; simpl.
  - by eexists.
  - apply NoDup_cons in Hnd as [Hf0 Hnd].
    destruct (Hfiles f0) as [b Hb]; [by left|].
    assert (∃ w1, clean_file cls_path f0 w = (Return tt, w1) ∧
              ∀ f, f ≠ f0 → fs w1 !! os_path_join cls_path f =
                             fs w !! os_path_join cls_path f) as (w1 & Hone & Hoth).
    { rewrite clean_file_run, Hb. destruct (keeps f0 b); eexists; (split; [done|]).
      - done.
      - intros f Hne. simpl. rewrite lookup_delete_ne; [done|].
        intros Heq. by apply os_path_join_inj in Heq as [_ ->]. }
    rewrite (bind_Return _ _ _ _ _ Hone). apply IH; [done|].
    intros f Hin. rewrite Hoth by (intros ->; done). apply Hfiles. by right.
Qed.

Lemma clean_classes_returns base classes w :
  (∀ cls, cls ∈ classes → fs w !! os_path_join base cls = Some Dir) →
  (∀ cls f, cls ∈ classes →
            fs w !! os_path_join (os_path_join base cls) f ≠ Some Dir) →
  ∃ w', for_ classes (λ cls,
          let cls_path := os_path_join base cls in
          fnames ← os_listdir cls_path ;
          for_ fnames (clean_file cls_path)) w = (Return tt, w').
Proof.
  revert w. induction classes as [|c classes IH]; intros w Hdirs Hflat; simpl.
  - by eexists.
  - destruct (clean_files_returns (os_path_join base c)
                (children (fs w) (os_path_join base c)) w) as [w1 Hone].
    { apply NoDup_children. }
    { intros f [x Hx]%elem_of_children. destruct x as [b|]; [by exists b|].
      by destruct (Hflat c f (ltac:(by left))). }
    assert ((fnames ← os_listdir (os_path_join base c) ;
             for_ fnames (clean_file (os_path_join base c))) w = (Return tt, w1))
      as Hbody.
    { rewrite (bind_Return _ _ _ _ _ (os_listdir_Dir _ _ (Hdirs c ltac:(by left)))).
      done. }
    rewrite (bind_Return _ _ _ _ _ Hbody).
    apply clean_class_Return in Hbody as [Hrm _].
    apply IH.
    + intros cls Hin. apply (only_rejects_removed_Dir (fs w)); [done|].
      apply Hdirs. by right.
    + intros cls f Hin Hd. apply (Hflat cls f); [by right|].
      by apply (only_rejects_removed_Some (fs w) (fs w1)).
Qed.

(** The cleanup of a split directory goes through whenever no class
    directory holds a directory of its own. *)
Lemma cleanup_returns base w :
  fs w !! base = Some Dir →
  (∀ cls f, fs w !! os_path_join base cls = Some Dir →
            fs w !! os_path_join (os_path_join base cls) f ≠ Some Dir) →
  ∃ w', remove_corrupted_and_non_images base w = (Return tt, w').
Proof.
  intros Hb Hflat. unfold remove_corrupted_and_non_images.
  rewrite (bind_Return _ _ w tt (World (fs w) (console w ++ [Checking base])))
    by done.
  rewrite (bind_Return _ _ _ _ _
             (list_classes_Dir base (World (fs w) (console w ++ [Checking base])) Hb)).
  simpl.
  apply clean_classes_returns; simpl.
  - intros cls. apply elem_of_class_names.
  - intros cls f Hin. apply Hflat. by apply elem_of_class_names in Hin.
Qed.

(** C1, as the code has it.  When the cleanup of a split directory
    completes, every entry left in a class directory is a file whose
    lowered name ends in [jpg], [jpeg] or [png] (no dot is asked for) and
    whose bytes pass the verification; and of the files a class directory
    held before, the ones that meet both conditions are still there with
    the same bytes, the others are gone. *)
Theorem cleanup_keeps_exactly_the_accepted (base : path) (w w' : world) :
  remove_corrupted_and_non_images base w = (Return tt, w') →
  (∀ cls f x,
     fs w' !! os_path_join base cls = Some Dir →
     fs w' !! os_path_join (os_path_join base cls) f = Some x →
     ∃ b, x = File b ∧
          Str.endswith (Str.lower f) image_suffixes = true ∧
          img_verify b = true) ∧
  (∀ cls f b,
     fs w !! os_path_join base cls = Some Dir →
     fs w !! os_path_join (os_path_join base cls) f = Some (File b) →
     fs w' !! os_path_join (os_path_join base cls) f =
     if keeps f b then Some (File b) else None).
Proof.
  intros Hrun. unfold remove_corrupted_and_non_images in Hrun.
  apply bind_Return_inv in Hrun as ([] & w0 & Hprint & Hrun).
  unfold print in Hprint. simplify_eq.
  apply bind_Return_inv in Hrun as (classes & w1 & Hcls & Hrun).
  apply list_classes_Return in Hcls as (Hb & -> & ->). simpl in *.
  apply clean_classes_Return in Hrun as [Hrm Hkept]. simpl in *.
  assert (∀ cls, fs w !! os_path_join base cls = Some Dir →
                 all_kept (fs w') (os_path_join base cls)) as Hall.
  { intros cls Hd. apply Hkept. by apply elem_of_class_names. }
  split.
  - intros cls f x Hd Hx.
    apply (only_rejects_removed_Some (fs w)) in Hd; [|done].
    destruct (Hall cls Hd f x Hx) as (b & -> & Hk).
    exists b. split; [done|]. by apply andb_true_iff in Hk.
  - intros cls f b Hd Hb0.
    destruct (keeps f b) eqn:Hk.
    + destruct (Hrm (os_path_join (os_path_join base cls) f))
        as [Heq|(_ & cp & f' & b' & Hq & Hq' & Hk')]; [congruence|].
      apply os_path_join_inj in Hq as [<- <-]. congruence.
    + destruct (fs w' !! os_path_join (os_path_join base cls) f) as [x|] eqn:Hx;
        [|done].
      destruct (Hall cls Hd f x Hx) as (b' & -> & Hk').
      apply (only_rejects_removed_Some (fs w)) in Hx; [|done]. congruence.
Qed.

End Cleanup_total.

Lemma cleanup_keeps_exactly_the_accepted_witness :
  let w' := (remove_corrupted_and_non_images (H := sample_lib)
               TRAIN_DIR sample_world).2 in
  fs w' !! (TRAIN_DIR ++ ["cat"; "a.jpg"]) = Some (File "A") ∧
  fs w' !! (TRAIN_DIR ++ ["cat"; "b.PNG"]) = None ∧
  fs w' !! (TRAIN_DIR ++ ["cat"; "notes.txt"]) = None.
Proof.
  intros w'.
  destruct (cleanup_keeps_exactly_the_accepted (H := sample_lib)
              TRAIN_DIR sample_world w') as [_ Hold].
  { evaluate_run. }
  split_and!.
  - etrans; [apply (Hold "cat" "a.jpg" "A"); evaluate|]. evaluate.
  - etrans; [apply (Hold "cat" "b.PNG" "garbage"); evaluate|]. evaluate.
  - etrans; [apply (Hold "cat" "notes.txt" "N"); evaluate|]. evaluate.
Defined.

(** C1 as the spec words it fails: the cleanup of [dotless_world] completes
    and leaves [scanjpg] in its class directory, a sound image whose name
    has none of the extensions [.jpg], [.jpeg], [.png]. *)
Lemma cleanup_keeps_dotless_name :
  let run := remove_corrupted_and_non_images (H := sample_lib)
               TRAIN_DIR dotless_world in
  run.1 = Return tt ∧
  fs run.2 !! os_path_join TRAIN_DIR "cat" = Some Dir ∧
  fs run.2 !! os_path_join (os_path_join TRAIN_DIR "cat") "scanjpg"
    = Some (File "S") ∧
  has_accepted_extension "scanjpg" = false.
Proof. evaluate. Qed.

(** ** Augmented names *)

Lemma pretty_N_char_digit x : is_Some (Ascii.is_nat (pretty_N_char x)).
Proof.
  destruct x as [|p]; [by eexists|].
  do 4 (destruct p as [p|p|]; try by eexists).
Qed.

Lemma pretty_five_digits (n : N) :
  (10000 ≤ n ≤ 99999)%N → five_digits (pretty n) = true.
Proof.
  intros Hn. unfold pretty, pretty_N.
  destruct (decide (n = 0%N)) as [->|_]; [lia|].
  assert ((((n / 10) / 10) / 10) / 10 = n / 10000)%N as Hd.
  { by rewrite !N.Div0.div_div. }
  assert (0 < n / 10000 < 10)%N as [Hlo Hhi].
  { split; [apply N.div_str_pos; lia|apply N.Div0.div_lt_upper_bound; lia]. }
  rewrite pretty_N_go_step by lia.
  rewrite pretty_N_go_step by (apply N.div_str_pos; lia).
  rewrite pretty_N_go_step
    by (rewrite N.Div0.div_div; apply N.div_str_pos; lia).
  rewrite pretty_N_go_step
    by (rewrite !N.Div0.div_div; apply N.div_str_pos; lia).
  rewrite pretty_N_go_step by (by rewrite Hd).
  rewrite Hd, (N.div_small (n / 10000) 10) by done.
  rewrite pretty_N_go_0. simpl.
  rewrite !andb_true_iff, !bool_decide_eq_true.
  split_and!; (apply pretty_N_char_digit || done).
Qed.

Lemma substring_whole s : String.substring 0 (String.length s) s = s.
Proof. induction s as [|a s IH]; [done|]. simpl. by rewrite IH. Qed.

(** A name the loop hands out reads as the convention says: [aug_], five
    digits, [_], and the name of the source. *)
Lemma aug_name_matches n orig :
  (10000 ≤ n ≤ 99999)%N → matches_aug_pattern (aug_name n orig) orig = true.
Proof.
  intros Hn. pose proof (pretty_five_digits n Hn) as Hfive.
  unfold aug_name. destruct (pretty n) as [|a [|b [|c [|d [|e [|? ?]]]]]]; try done.
  unfold matches_aug_pattern. cbv [String.append]. cbn -[five_digits].
  rewrite Hfive, Nat.sub_0_r, substring_whole, String.eqb_refl.
  by destruct orig.
Qed.

(** A name of the augmented shape bears the prefix: it is no original. *)
Lemma aug_name_not_original n src : is_original (aug_name n src) = false.
Proof.
  unfold is_original, aug_name.
  generalize (pretty n +:+ "_" +:+ src). intros s. by destruct s.
Qed.

Lemma random_randint_range (d : draw) :
  (10000 ≤ random_randint 10000 99999 d ≤ 99999)%N.
Proof.
  unfold random_randint. change (99999 - 10000 + 1)%N with 90000%N.
  assert (number d mod 90000 < 90000)%N as Hlt by (by apply N.mod_upper_bound).
  revert Hlt. generalize (number d mod 90000)%N. intros r Hlt. lia.
Qed.

Lemma random_choice_elem_of (images : list string) (d : draw) :
  images ≠ [] → random_choice images d ∈ images.
Proof.
  intros Hne. unfold random_choice.
  assert (pick d mod length images < length images) as Hlt.
  { apply Nat.mod_upper_bound. by destruct images. }
  apply lookup_lt_is_Some in Hlt as [x Hx]. rewrite Hx. simpl.
  by eapply list_elem_of_lookup_2.
Qed.

(** ** One round of the augmentation loop *)

Lemma only_augmented_refl (cp : path) (images : list string) (fs0 : filesystem) :
  only_augmented cp images fs0 fs0.
Proof. intros q. by left. Qed.

Lemma only_augmented_trans (cp : path) (images : list string) (fs1 fs2 fs3 : filesystem) :
  only_augmented cp images fs1 fs2 → only_augmented cp images fs2 fs3 →
  only_augmented cp images fs1 fs3.
Proof.
  intros H12 H23 q.
  destruct (H23 q) as [Heq|(name & b & Hname & -> & Hq & Hnd)].
  - rewrite Heq. apply H12.
  - right. exists name, b. split_and!; [done..|].
    destruct (H12 (os_path_join cp name)) as [Heq|(? & ? & _ & _ & ? & ?)];
      congruence.
Qed.

Lemma only_augmented_Dir (cp : path) (images : list string) (fs1 fs2 : filesystem) q :
  only_augmented cp images fs1 fs2 →
  (fs2 !! q = Some Dir ↔ fs1 !! q = Some Dir).
Proof.
  intros H12. destruct (H12 q) as [Heq|(? & ? & _ & _ & ? & ?)].
  - by rewrite Heq.
  - split; congruence.
Qed.

(** Nothing is removed. *)
Lemma only_augmented_is_Some (cp : path) (images : list string) (fs1 fs2 : filesystem) q :
  only_augmented cp images fs1 fs2 → is_Some (fs1 !! q) → is_Some (fs2 !! q).
Proof.
  intros H12 Hq. destruct (H12 q) as [Heq|(? & ? & _ & _ & Hq2 & _)].
  - by rewrite Heq.
  - by rewrite Hq2.
Qed.

(** A directory lists at least what it listed, when nothing was removed. *)
Lemma children_length_mono (fs1 fs2 : filesystem) p :
  (∀ n, is_Some (fs1 !! os_path_join p n) → is_Some (fs2 !! os_path_join p n)) →
  length (children fs1 p) ≤ length (children fs2 p).
Proof.
  intros Hsub. apply submseteq_length, NoDup_submseteq; [apply NoDup_children|].
  intros n. rewrite !elem_of_children. apply Hsub.
Qed.

Section Round.
Context `{ImageLib}.

(** The [try] block raises and leaves the world as it was, or raises
    after it has emptied the file that bore the new name, or writes one
    file under the new name. *)
Lemma augment_try_cases cp src d w :
  let p := os_path_join cp (new_name d src) in
  (∃ e, augment_try cp src d w = (Raised e, w)) ∨
  (∃ b old part,
     fs w !! os_path_join cp src = Some (File b) ∧ img_decode b = true ∧
     written d = Breaks part ∧ fs w !! p = Some (File old) ∧
     augment_try cp src d w =
     (Raised ImageError, World (<[p := File part]> (fs w)) (console w))) ∨
  (∃ b nb, fs w !! os_path_join cp src = Some (File b) ∧ img_decode b = true ∧
           written d = Saves nb ∧ fs w !! p ≠ Some Dir ∧
           augment_try cp src d w =
           (Return tt, World (<[p := File nb]> (fs w)) (console w))).
Proof.
  intros p. unfold augment_try, bind, image_open_convert, augment_and_save.
  fold p.
  destruct (fs w !! os_path_join cp src) as [[b|]|] eqn:Hsrc; [|left; by eexists..].
  destruct (img_decode b) eqn:Hdec; [|left; by eexists].
  destruct (written d) as [nb| |part] eqn:Hwr; [|left; by eexists|].
  - destruct (fs w !! p) as [[b'|]|] eqn:Hdst.
    + right; right. by exists b, nb.
    + left. by eexists.
    + right; right. by exists b, nb.
  - destruct (fs w !! p) as [[b'|]|] eqn:Hdst.
    + right; left. by exists b, b', part.
    + left. by eexists.
    + left. by eexists.
Qed.


(** An exception of the [try] block ends the round with one more line on
    the console. *)
Lemma augment_once_caught images cp d w e w' :
  augment_try cp (random_choice images d) d w = (Raised e, w') →
  augment_once images cp d w =
  (Return tt,
   World (fs w') (console w' ++ [ErrorAugmenting (random_choice images d)])).
Proof. intros Hr. unfold augment_once, try_except. by rewrite Hr. Qed.

Lemma augment_once_saved images cp d w w' :
  augment_try cp (random_choice images d) d w = (Return tt, w') →
  augment_once images cp d w = (Return tt, w').
Proof. intros Hr. unfold augment_once, try_except. by rewrite Hr. Qed.

(** Writing a file under an augmented name of [images], where no
    directory stood. *)
Lemma only_augmented_insert (images : list string) (cp : path) (d : draw)
    (nb : string) (fs0 : filesystem) :
  images ≠ [] →
  fs0 !! os_path_join cp (new_name d (random_choice images d)) ≠ Some Dir →
  only_augmented cp images fs0
    (<[os_path_join cp (new_name d (random_choice images d)) := File nb]> fs0).
Proof.
  intros Hne Hdst q.
  destruct (decide (q = os_path_join cp (new_name d (random_choice images d))))
    as [->|Hq]; [right|left; by rewrite lookup_insert_ne].
  eexists _, nb. split_and!; [|done| |done].
  - exists (random_randint 10000 99999 d), (random_choice images d).
    split; [apply random_randint_range|].
    split; [by apply random_choice_elem_of|done].
  - by rewrite lookup_insert_eq.
Qed.

(** A round never raises; it leaves the file system as it was or with one
    file written under an augmented name of one of [images]. *)
Lemma augment_once_spec images cp d w :
  images ≠ [] →
  ∃ w1, augment_once images cp d w = (Return tt, w1) ∧
        only_augmented cp images (fs w) (fs w1) ∧
        length (children (fs w) cp) ≤ length (children (fs w1) cp)
          ≤ S (length (children (fs w) cp)).
Proof.
  intros Hne.
  destruct (augment_try_cases cp (random_choice images d) d w)
    as [[e Hr]|[(b & old & part & Hsrc & Hdec & Hwr & Hold & Hr)
               |(b & nb & Hsrc & Hdec & Hwr & Hdst & Hr)]].
  - eexists. split; [by eapply augment_once_caught|]. simpl.
    split; [apply only_augmented_refl|lia].
  - eexists. split; [by eapply augment_once_caught|]. simpl. split.
    + apply only_augmented_insert; [done|]. by rewrite Hold.
    + rewrite !length_children, subdir_insert_child.
      rewrite map_size_insert_Some; [lia|].
      rewrite lookup_subdir, Hold. by eexists.
  - eexists. split; [by apply augment_once_saved|]. simpl. split.
    + by apply only_augmented_insert.
    + rewrite !length_children, subdir_insert_child.
      destruct (subdir (fs w) cp !! new_name d (random_choice images d)) eqn:Hn.
      * rewrite map_size_insert_Some by done. lia.
      * rewrite map_size_insert_None by done. lia.
Qed.

End Round.

(** ** The augmentation loop *)

Section Loop.
Context `{ImageLib}.

Lemma augment_loop_unfold images cp target tape w :
  fs w !! cp = Some Dir →
  augment_loop images cp target tape w =
  if bool_decide (length (children (fs w) cp) < target) then
    match images with
    | [] => (Raised IndexError, w)
    | _ :: _ =>
        match tape with
        | [] => (Interrupted, w)
        | d :: tape' =>
            (augment_once images cp d ;;
             augment_loop images cp target tape') w
        end
    end
  else (Return tape, w).
Proof.
  intros Hd. destruct tape as [|d tape']; simpl.
  - rewrite (bind_Return _ _ _ _ _ (os_listdir_Dir _ _ Hd)).
    case_bool_decide; [|done]. by destruct images.
  - rewrite (bind_Return _ _ _ _ _ (os_listdir_Dir _ _ Hd)).
    case_bool_decide; [|done]. by destruct images.
Qed.

(** The test fails: the loop ends at once, and reads no draw. *)
Lemma augment_loop_exit images cp target tape w :
  fs w !! cp = Some Dir → target ≤ length (children (fs w) cp) →
  augment_loop images cp target tape w = (Return tape, w).
Proof.
  intros Hd Hle. rewrite augment_loop_unfold by done.
  rewrite bool_decide_eq_false_2; [done|lia].
Qed.

(** The test holds and there is a draw: one round, then the loop again. *)
Lemma augment_loop_step images cp target d tape w :
  fs w !! cp = Some Dir → images ≠ [] →
  length (children (fs w) cp) < target →
  augment_loop images cp target (d :: tape) w =
  augment_loop images cp target tape (augment_once images cp d w).2.
Proof.
  intros Hd Hne Hlt. rewrite augment_loop_unfold by done.
  rewrite bool_decide_eq_true_2 by done.
  destruct images as [|i images]; [done|].
  destruct (augment_once_spec (i :: images) cp d w Hne) as (w1 & Hone & _).
  by rewrite (bind_Return _ _ _ _ _ Hone), Hone.
Qed.

(** The loop as a whole, from a listing [images] that is not empty. *)
Lemma augment_loop_spec images cp target tape w :
  images ≠ [] → fs w !! cp = Some Dir →
  ∃ r w', augment_loop images cp target tape w = (r, w') ∧
    only_augmented cp images (fs w) (fs w') ∧
    length (children (fs w) cp) ≤ length (children (fs w') cp) ∧
    (∀ e, r ≠ Raised e) ∧
    (r = Interrupted → length (children (fs w') cp) < target) ∧
    (∀ tape', r = Return tape' →
       length (children (fs w') cp)
         = length (children (fs w) cp) `max` target ∧
       ∃ used, tape = used ++ tape').
Proof.
  intros Hne. revert w. induction tape as [|d tape IH]; intros w Hd.
  - rewrite augment_loop_unfold by done. case_bool_decide.
    + destruct images as [|i images]; [done|].
      exists Interrupted, w. split_and!; try done.
      apply only_augmented_refl.
    + exists (Return []), w. split_and!; try done.
      * apply only_augmented_refl.
      * intros tape' ?; simplify_eq. split; [lia|by exists []].
  - destruct (decide (length (children (fs w) cp) < target)) as [Hlt|Hge].
    + rewrite augment_loop_step by done.
      destruct (augment_once_spec images cp d w Hne) as (w1 & Hone & H01 & Hcnt).
      rewrite Hone. simpl.
      destruct (IH w1) as (r & w' & Hrun & H1 & Hmono & Hnr & Hint & Hret).
      { by apply (only_augmented_Dir cp images (fs w)). }
      exists r, w'. split_and!; [done| |lia|done|done|].
      * by eapply only_augmented_trans.
      * intros tape' Hr. destruct (Hret tape' Hr) as [Hlen [used ->]].
        split; [lia|by exists (d :: used)].
    + rewrite augment_loop_exit by (done || lia).
      exists (Return (d :: tape)), w. split_and!; try done.
      * apply only_augmented_refl.
      * intros tape' ?; simplify_eq. split; [lia|by exists []].
Qed.

(** The whole call on a directory. *)
Lemma augment_class_images_unfold cp target tape w :
  fs w !! cp = Some Dir →
  augment_class_images cp target tape w =
  augment_loop (children (fs w) cp) cp target tape
    (World (fs w)
           (console w ++ [Augmenting cp (length (children (fs w) cp)) target])).
Proof.
  intros Hd. unfold augment_class_images.
  rewrite (bind_Return _ _ _ _ _ (os_listdir_Dir _ _ Hd)).
  by unfold bind at 1, print at 1.
Qed.

End Loop.

Section Call.
Context `{ImageLib}.

(** Whatever way a call ends, it has only written augmented copies of
    the files it listed when it started. *)
Lemma augment_class_images_frame cp target tape w :
  only_augmented cp (children (fs w) cp) (fs w)
                 (fs (augment_class_images cp target tape w).2).
Proof.
  destruct (fs w !! cp) as [[b|]|] eqn:Hd.
  - unfold augment_class_images, bind, os_listdir. rewrite Hd.
    apply only_augmented_refl.
  - rewrite augment_class_images_unfold by done.
    destruct (children (fs w) cp) as [|i images] eqn:Himg.
    + rewrite augment_loop_unfold by done. cbn [fs]. rewrite Himg.
      case_bool_decide; apply only_augmented_refl.
    + destruct (augment_loop_spec (i :: images) cp target tape
                  (World (fs w) (console w ++ [Augmenting cp (length (i :: images)) target])))
        as (r & w' & Hrun & Hfr & _); [done..|].
      by rewrite Hrun.
  - unfold augment_class_images, bind, os_listdir. rewrite Hd.
    apply only_augmented_refl.
Qed.

(** A call that returns. *)
Lemma augment_class_images_Return cp target tape w tape' w' :
  augment_class_images cp target tape w = (Return tape', w') →
  fs w !! cp = Some Dir ∧
  only_augmented cp (children (fs w) cp) (fs w) (fs w') ∧
  length (children (fs w') cp) = length (children (fs w) cp) `max` target ∧
  ∃ used, tape = used ++ tape'.
Proof.
  intros Hrun.
  assert (fs w !! cp = Some Dir) as Hd.
  { unfold augment_class_images in Hrun.
    apply bind_Return_inv in Hrun as (l & w1 & Hl & _).
    by apply os_listdir_Return in Hl as [? _]. }
  split; [done|].
  split; [by rewrite (surjective_pairing (augment_class_images cp target tape w))
            in Hrun; simplify_eq; apply augment_class_images_frame|].
  rewrite augment_class_images_unfold in Hrun by done.
  destruct (children (fs w) cp) as [|i images] eqn:Himg.
  - rewrite augment_loop_unfold in Hrun by done. simpl in Hrun.
    rewrite Himg in Hrun. case_bool_decide; simplify_eq. simpl.
    rewrite Himg. simpl in *. split; [lia|by exists []].
  - destruct (augment_loop_spec (i :: images) cp target tape
                (World (fs w) (console w ++ [Augmenting cp (length (i :: images)) target])))
      as (r & w2 & Hrun' & _ & _ & _ & _ & Hret); [done..|].
    rewrite Hrun' in Hrun. simplify_eq.
    destruct (Hret tape' eq_refl) as [Hlen Hused]. simpl in Hlen.
    by rewrite Himg in Hlen.
Qed.

(** C10. A call that starts below the target and returns leaves exactly
    the target number of entries: a round never lowers the count and
    raises it by one at most, and the count is read before every round. *)
Theorem augmentation_stops_at_target (cp : path) (target : nat)
    (tape tape' : list draw) (w w' : world) :
  length (children (fs w) cp) < target →
  augment_class_images cp target tape w = (Return tape', w') →
  length (children (fs w') cp) = target ∧
  ∀ d w1,
    let w2 := (augment_once (children (fs w) cp) cp d w1).2 in
    length (children (fs w1) cp) ≤ length (children (fs w2) cp)
      ≤ S (length (children (fs w1) cp)).
Proof.
  intros Hlt Hrun.
  pose proof Hrun as (Hd & _ & Hlen & _)%augment_class_images_Return.
  split; [lia|].
  intros d w1.
  destruct (children (fs w) cp) as [|i images] eqn:Himg.
  { rewrite augment_class_images_unfold, augment_loop_unfold in Hrun by done.
    simpl in Hrun. rewrite Himg in Hrun. simpl in Hrun.
    rewrite bool_decide_eq_true_2 in Hrun by done. simplify_eq. }
  destruct (augment_once_spec (i :: images) cp d w1) as (w2 & Hone & _ & Hcnt);
    [done|].
  rewrite Hone. done.
Qed.

(** C8. Called on a directory that already lists the target number of
    entries or more, the augmentation returns at once: no round runs, no
    draw is read, the file system is the one it found, and the console has
    the call's own opening line and nothing else.  In step 5 the guard
    before the call keeps even that line away. *)
Theorem augmentation_noop_when_target_met (cp : path) (target : nat)
    (tape : list draw) (w : world) :
  fs w !! cp = Some Dir →
  target ≤ length (children (fs w) cp) →
  augment_class_images cp target tape w =
    (Return tape,
     World (fs w)
           (console w ++ [Augmenting cp (length (children (fs w) cp)) target])) ∧
  (∀ cls n, cp = os_path_join TRAIN_DIR cls → target = TARGET_COUNT →
            balance_classes [(cls, n)] tape w = (Return tape, w)).
Proof.
  intros Hd Hle. split.
  - rewrite augment_class_images_unfold by done.
    by rewrite augment_loop_exit.
  - intros cls n -> ->. unfold balance_classes, dict_keys.
    rewrite fmap_cons, fmap_nil. cbn [for_acc fst].
    unfold bind at 1, balance_one.
    rewrite (bind_Return _ _ _ _ _ (os_listdir_Dir _ _ Hd)).
    rewrite bool_decide_eq_false_2 by lia. done.
Qed.

(** C9. Called on an empty directory with a positive target, the
    augmentation ends in an [IndexError] that nothing catches: the choice
    of a source stands before the [try], no round is logged as an error,
    and the file system is untouched.  In step 5 the exception ends the
    loop over the classes, whatever classes were still to come. *)
Theorem augmentation_of_empty_directory_raises (cp : path) (target : nat)
    (tape : list draw) (w : world) :
  fs w !! cp = Some Dir →
  children (fs w) cp = [] →
  0 < target →
  augment_class_images cp target tape w =
    (Raised IndexError,
     World (fs w) (console w ++ [Augmenting cp 0 target])) ∧
  (∀ cls n rest, cp = os_path_join TRAIN_DIR cls →
     balance_classes ((cls, n) :: rest) tape w =
       (Raised IndexError,
        World (fs w) (console w ++ [Augmenting cp 0 TARGET_COUNT]))).
Proof.
  intros Hd Hempty Hpos.
  assert (∀ t, 0 < t →
            augment_class_images cp t tape w =
            (Raised IndexError, World (fs w) (console w ++ [Augmenting cp 0 t])))
    as Hcall.
  { intros t Ht. rewrite augment_class_images_unfold by done.
    rewrite augment_loop_unfold by done. simpl. rewrite Hempty. simpl.
    by rewrite bool_decide_eq_true_2. }
  split; [by apply Hcall|].
  intros cls n rest ->. unfold balance_classes, dict_keys.
  rewrite fmap_cons. cbn [for_acc fst]. unfold bind at 1, balance_one.
  rewrite (bind_Return _ _ _ _ _ (os_listdir_Dir _ _ Hd)).
  rewrite Hempty. cbn [length].
  rewrite bool_decide_eq_true_2 by (unfold TARGET_COUNT; lia).
  rewrite Hcall; [done|unfold TARGET_COUNT; lia].
Qed.


End Call.

Lemma augmentation_stops_at_target_witness :
  let cp := os_path_join TRAIN_DIR "cat" in
  let run := augment_class_images (H := sample_lib) cp 4 pair_tape pair_world in
  length (children (fs run.2) cp) = 4.
Proof.
  intros cp run.
  refine (proj1 (augmentation_stops_at_target (H := sample_lib) cp 4 pair_tape
                   [Draw 0 2 (Saves "unused")] pair_world run.2 _ _)).
  - evaluate.
  - evaluate_run.
Defined.

Lemma augmentation_noop_when_target_met_witness :
  let cp := os_path_join TRAIN_DIR "cat" in
  augment_class_images (H := sample_lib) cp 2 pair_tape sample_world =
    (Return pair_tape,
     World (fs sample_world)
           (console sample_world ++
              [Augmenting cp (length (children (fs sample_world) cp)) 2])).
Proof.
  intros cp.
  refine (proj1 (augmentation_noop_when_target_met (H := sample_lib) cp 2
                   pair_tape sample_world _ _)).
  - evaluate.
  - evaluate.
Defined.

Lemma augmentation_of_empty_directory_raises_witness :
  let cp := os_path_join TRAIN_DIR "cat" in
  balance_classes (H := sample_lib) [("cat", 0)] pair_tape empty_class_world =
    (Raised IndexError,
     World (fs empty_class_world)
           (console empty_class_world ++ [Augmenting cp 0 TARGET_COUNT])).
Proof.
  intros cp.
  refine (proj2 (augmentation_of_empty_directory_raises (H := sample_lib) cp 1
                   pair_tape empty_class_world _ _ _) "cat" 0 [] eq_refl).
  - evaluate.
  - evaluate.
  - lia.
Defined.


(** ** Step 5: balancing the training split *)

Lemma only_train_augmented_refl (fs0 : filesystem) :
  only_train_augmented fs0 fs0.
Proof. intros q. by left. Qed.

Lemma only_train_augmented_trans (fs1 fs2 fs3 : filesystem) :
  only_train_augmented fs1 fs2 → only_train_augmented fs2 fs3 →
  only_train_augmented fs1 fs3.
Proof.
  intros H12 H23 q.
  destruct (H23 q) as [Heq|(cls & name & b & Hname & -> & Hq & Hnd)].
  - rewrite Heq. apply H12.
  - right. exists cls, name, b. split_and!; [done..|].
    destruct (H12 (os_path_join (os_path_join TRAIN_DIR cls) name))
      as [Heq|(? & ? & ? & _ & _ & ? & ?)]; congruence.
Qed.

Lemma only_train_augmented_Dir (fs1 fs2 : filesystem) q :
  only_train_augmented fs1 fs2 →
  (fs2 !! q = Some Dir ↔ fs1 !! q = Some Dir).
Proof.
  intros H12. destruct (H12 q) as [Heq|(? & ? & ? & _ & _ & ? & ?)].
  - by rewrite Heq.
  - split; congruence.
Qed.

Lemma only_train_augmented_is_Some (fs1 fs2 : filesystem) q :
  only_train_augmented fs1 fs2 → is_Some (fs1 !! q) → is_Some (fs2 !! q).
Proof.
  intros H12 Hq. destruct (H12 q) as [Heq|(? & ? & ? & _ & _ & Hq2 & _)].
  - by rewrite Heq.
  - by rewrite Hq2.
Qed.

Lemma only_augmented_train (images : list string) (cls : string)
    (fs1 fs2 : filesystem) :
  only_augmented (os_path_join TRAIN_DIR cls) images fs1 fs2 →
  only_train_augmented fs1 fs2.
Proof.
  intros H12 q.
  destruct (H12 q) as [Heq|(name & b & (n & src & ? & ? & ?) & ? & ? & ?)];
    [by left|right].
  exists cls, name, b. split_and!; [|done..]. by exists n, src.
Qed.

(** Outside the training split nothing changes. *)
Lemma only_train_augmented_outside (fs1 fs2 : filesystem) q :
  only_train_augmented fs1 fs2 → ¬ TRAIN_DIR `prefix_of` q →
  fs2 !! q = fs1 !! q.
Proof.
  intros H12 Hq. destruct (H12 q) as [Heq|(cls & name & b & _ & Hname & _)].
  - done.
  - destruct Hq. exists [cls; name]. rewrite Hname.
    unfold os_path_join. by rewrite <-!app_assoc.
Qed.

Section Balance.
Context `{ImageLib}.

Lemma balance_one_frame tape cls w :
  only_train_augmented (fs w) (fs (balance_one tape cls w).2).
Proof.
  unfold balance_one, bind.
  pose proof (os_listdir_frame (os_path_join TRAIN_DIR cls) w) as Hfr.
  destruct (os_listdir (os_path_join TRAIN_DIR cls) w) as [[l|e|] w1];
    simpl in Hfr; subst w1; [|apply only_train_augmented_refl..].
  case_bool_decide; [|apply only_train_augmented_refl].
  eapply only_augmented_train, augment_class_images_frame.
Qed.

Lemma balance_one_Return tape cls w tape' w' :
  balance_one tape cls w = (Return tape', w') →
  fs w !! os_path_join TRAIN_DIR cls = Some Dir ∧
  TARGET_COUNT ≤ length (children (fs w') (os_path_join TRAIN_DIR cls)).
Proof.
  intros Hrun. unfold balance_one in Hrun.
  apply bind_Return_inv in Hrun as (l & w1 & Hl & Hrun).
  apply os_listdir_Return in Hl as (Hd & -> & ->). split; [done|].
  case_bool_decide as Hlt.
  - apply augment_class_images_Return in Hrun as (_ & _ & Hlen & _). lia.
  - unfold ret in Hrun. simplify_eq. lia.
Qed.

Lemma balance_loop_frame classes tape w :
  only_train_augmented (fs w) (fs (for_acc classes balance_one tape w).2).
Proof.
  revert tape w. induction classes as [|c classes IH]; intros tape w; simpl.
  - apply only_train_augmented_refl.
  - unfold bind. pose proof (balance_one_frame tape c w) as Hone.
    destruct (balance_one tape c w) as [[t|e|] w1]; simpl in *; [|done..].
    by eapply only_train_augmented_trans.
Qed.

Lemma balance_loop_Return classes tape w tape' w' :
  for_acc classes balance_one tape w = (Return tape', w') →
  ∀ c, c ∈ classes →
    TARGET_COUNT ≤ length (children (fs w') (os_path_join TRAIN_DIR c)).
Proof.
  revert tape w. induction classes as [|c0 classes IH]; intros tape w Hrun c Hc.
  { by apply elem_of_nil in Hc. }
  simpl in Hrun. apply bind_Return_inv in Hrun as (t & w1 & Hone & Hrest).
  apply elem_of_cons in Hc as [->|Hc]; [|by eapply IH].
  apply balance_one_Return in Hone as [_ Hlen].
  etrans; [exact Hlen|]. apply children_length_mono. intros n.
  apply only_train_augmented_is_Some.
  pose proof (balance_loop_frame classes t w1) as Hfr.
  by rewrite Hrest in Hfr.
Qed.

Lemma balance_classes_for_acc stats tape :
  balance_classes stats tape = for_acc (dict_keys stats) balance_one tape.
Proof. done. Qed.

End Balance.

(** The statistics of a split directory depend on nothing but what lies
    below it. *)
Lemma count_table_ext (fs1 fs2 : filesystem) base :
  (∀ q, base `prefix_of` q → fs1 !! q = fs2 !! q) →
  count_table fs1 base = count_table fs2 base.
Proof.
  intros Hagree.
  assert (∀ p n, base `prefix_of` p →
                 fs1 !! os_path_join p n = fs2 !! os_path_join p n) as Hbelow.
  { intros p n [k ->]. apply Hagree. exists (k ++ [n]).
    unfold os_path_join. by rewrite <-app_assoc. }
  assert (class_names fs1 base = class_names fs2 base) as Hcls.
  { unfold class_names.
    rewrite (children_ext fs1 fs2 base) by (intros n; by apply Hbelow).
    f_equal. apply list_filter_iff. intros d. by rewrite Hbelow. }
  unfold count_table. rewrite Hcls. clear Hcls.
  generalize (@nil (string * nat)).
  induction (class_names fs2 base) as [|c l IH]; intros acc; [done|]. simpl.
  rewrite IH. do 2 f_equal. unfold image_count.
  rewrite (children_ext fs1 fs2 (os_path_join base c)); [done|].
  intros n. apply Hbelow. by exists [c].
Qed.

Lemma count_images_ext base w1 w2 :
  (∀ q, base `prefix_of` q → fs w1 !! q = fs w2 !! q) →
  (count_images_in_classes base w1).1 = (count_images_in_classes base w2).1.
Proof.
  intros Hagree. pose proof (Hagree base (reflexivity _)) as Hb.
  destruct (fs w2 !! base) as [[b|]|] eqn:Hb2.
  - unfold count_images_in_classes, bind, list_classes, bind, os_listdir.
    by rewrite Hb, Hb2.
  - rewrite !count_images_Dir by done. simpl. f_equal.
    by apply count_table_ext.
  - unfold count_images_in_classes, bind, list_classes, bind, os_listdir.
    by rewrite Hb, Hb2.
Qed.

Section Balance_claims.
Context `{ImageLib}.

(** C4. However step 5 ends, it leaves every path outside the training
    split as it found it, and so the counts of the validation split and
    of the test split, class by class, are the ones from before. *)
Theorem balancing_leaves_val_and_test (train_stats : list (string * nat))
    (tape : list draw) (w : world) :
  let w' := (balance_classes train_stats tape w).2 in
  (∀ q, ¬ TRAIN_DIR `prefix_of` q → fs w' !! q = fs w !! q) ∧
  (count_images_in_classes VAL_DIR w').1
    = (count_images_in_classes VAL_DIR w).1 ∧
  (count_images_in_classes TEST_DIR w').1
    = (count_images_in_classes TEST_DIR w).1.
Proof.
  intros w'.
  assert (∀ q, ¬ TRAIN_DIR `prefix_of` q → fs w' !! q = fs w !! q) as Hout.
  { intros q Hq. apply only_train_augmented_outside; [|done].
    apply balance_loop_frame. }
  split; [done|].
  split; apply count_images_ext; intros q [k ->]; apply Hout;
    intros [k' Hk']; by simplify_list_eq.
Qed.

(** C3. When step 5, run on the counts that step 2 took of the training
    split, completes: every class directory of the training split lists at
    least the target number of entries; nothing that existed has been
    removed; the only paths whose content differs are files of training
    class directories under a name of the augmented shape, so that the
    count was reached by writing augmented files; and every original, a
    file whose name does not begin with [aug_], is exactly as it was, and
    none is new. *)
Theorem balancing_reaches_target_by_adding (train_stats : list (string * nat))
    (tape tape' : list draw) (w w' : world) :
  (count_images_in_classes TRAIN_DIR w).1 = Return train_stats →
  balance_classes train_stats tape w = (Return tape', w') →
  (∀ cls, fs w' !! os_path_join TRAIN_DIR cls = Some Dir →
          TARGET_COUNT ≤ length (children (fs w') (os_path_join TRAIN_DIR cls))) ∧
  (∀ q, is_Some (fs w !! q) → is_Some (fs w' !! q)) ∧
  only_train_augmented (fs w) (fs w') ∧
  (∀ cls f x, fs w !! os_path_join (os_path_join TRAIN_DIR cls) f = Some x →
              ¬ aug_shaped f →
              fs w' !! os_path_join (os_path_join TRAIN_DIR cls) f = Some x) ∧
  (∀ p f, is_original f = true →
          fs w' !! os_path_join p f = fs w !! os_path_join p f).
Proof.
  intros Hstats Hrun.
  destruct (count_images_in_classes TRAIN_DIR w) as [r w0] eqn:Hcount.
  simpl in Hstats. subst r.
  apply count_images_Return in Hcount as (Hd & -> & ->).
  assert (only_train_augmented (fs w) (fs w')) as Hfr.
  { pose proof (balance_loop_frame (dict_keys (count_table (fs w) TRAIN_DIR))
                  tape w) as Hfr.
    rewrite <-balance_classes_for_acc, Hrun in Hfr. done. }
  split_and!; [| |done| |].
  - intros cls Hcls.
    apply (balance_loop_Return _ _ _ _ _ Hrun).
    rewrite dict_keys_count_table. apply elem_of_class_names.
    by apply (only_train_augmented_Dir (fs w) (fs w')).
  - intros q. by apply only_train_augmented_is_Some.
  - intros cls f x Hx Hshape.
    destruct (Hfr (os_path_join (os_path_join TRAIN_DIR cls) f))
      as [Heq|(cls' & name & b & Hname & Hq & _)]; [congruence|].
    apply os_path_join_inj in Hq as [_ ->]. done.
  - intros p f Horig.
    destruct (Hfr (os_path_join p f))
      as [Heq|(cls' & name & b & (n & src & _ & Hname) & Hq & _)]; [done|].
    apply os_path_join_inj in Hq as [_ ->]. subst name.
    by rewrite aug_name_not_original in Horig.
Qed.

End Balance_claims.

Lemma balancing_reaches_target_by_adding_witness :
  let train_stats := count_table (fs crowded_world) TRAIN_DIR in
  let run := balance_classes (H := sample_lib) train_stats crowded_tape
               crowded_world in
  let original := os_path_join (os_path_join TRAIN_DIR "cat") "a.jpg" in
  TARGET_COUNT ≤ length (children (fs run.2) (os_path_join TRAIN_DIR "cat")) ∧
  fs run.2 !! original = fs crowded_world !! original.
Proof.
  intros train_stats run original.
  destruct (balancing_reaches_target_by_adding (H := sample_lib) train_stats
              crowded_tape [] crowded_world run.2) as (Hlen & _ & _ & _ & Horig).
  - evaluate.
  - evaluate_run.
  - split; [apply Hlen; evaluate|apply Horig; reflexivity].
Defined.

(** ** Where the sources come from *)

Section Sources.
Context `{ImageLib}.

(** After a call, however it ended, a name the directory lists is one it
    listed before the call or an augmented name of one of those. *)
Lemma augment_class_images_names cp target tape w name :
  name ∈ children (fs (augment_class_images cp target tape w).2) cp →
  name ∈ children (fs w) cp ∨ aug_name_of (children (fs w) cp) name.
Proof.
  rewrite !elem_of_children. intros Hname.
  destruct (augment_class_images_frame cp target tape w (os_path_join cp name))
    as [Heq|(name' & b & Hshape & Hq & _)].
  - left. by rewrite <-Heq.
  - right. by apply os_path_join_inj in Hq as [_ ->].
Qed.

(** C2, as the code has it.  The source of every round is drawn from the
    listing taken once, before the loop: a draw always lands in it, every
    name in it can be drawn, and the loop hands the same listing on from
    round to round; only the loop's test reads the directory again.  So
    whatever the call writes is an augmented copy of a file listed when
    the call began, and every name listed afterwards is one of those names
    or an augmented name of one of them. *)
Theorem augmentation_draws_from_first_listing (cp : path) (target : nat)
    (tape : list draw) (w : world) :
  let images := children (fs w) cp in
  let w' := (augment_class_images cp target tape w).2 in
  (images ≠ [] → ∀ d, random_choice images d ∈ images) ∧
  (∀ src, src ∈ images → ∃ k, ∀ n wr, random_choice images (Draw k n wr) = src) ∧
  (images ≠ [] → ∀ d rest w1,
     fs w1 !! cp = Some Dir → length (children (fs w1) cp) < target →
     augment_loop images cp target (d :: rest) w1 =
     augment_loop images cp target rest (augment_once images cp d w1).2) ∧
  only_augmented cp images (fs w) (fs w') ∧
  (∀ name, name ∈ children (fs w') cp →
           name ∈ images ∨ aug_name_of images name).
Proof.
  intros images w'. split_and!.
  - intros Hne d. by apply random_choice_elem_of.
  - intros src Hsrc. apply list_elem_of_lookup in Hsrc as [k Hk].
    exists k. intros n wr. unfold random_choice. simpl.
    rewrite Nat.mod_small by (by eapply lookup_lt_Some). by rewrite Hk.
  - intros Hne d rest w1 Hd Hlt. by apply augment_loop_step.
  - apply augment_class_images_frame.
  - intros name. apply augment_class_images_names.
Qed.

End Sources.

(** C2 as the spec words it fails.  From a directory that holds [a.jpg]
    alone, whatever the draws, the call lists nothing but [a.jpg] and
    augmented copies of [a.jpg]: the copies made on the way are never a
    source.  With the two draws of [single_tape] the loop of the spec's
    wording augments the copy of the first round, and the notebook's loop
    does not. *)
Lemma augmentation_never_draws_a_copy :
  let cp := os_path_join TRAIN_DIR "cat" in
  (∀ tape name,
     name ∈ children (fs (augment_class_images (H := sample_lib) cp 3 tape
                            single_world).2) cp →
     name = "a.jpg" ∨ ∃ n, (10000 ≤ n ≤ 99999)%N ∧ name = aug_name n "a.jpg") ∧
  children (fs (augment_class_images_rereading (H := sample_lib) cp 3 single_tape
                  single_world).2) cp
    = ["aug_10001_aug_10000_a.jpg"; "aug_10000_a.jpg"; "a.jpg"] ∧
  children (fs (augment_class_images (H := sample_lib) cp 3 single_tape
                  single_world).2) cp
    = ["aug_10001_a.jpg"; "aug_10000_a.jpg"; "a.jpg"].
Proof.
  intros cp. split; [|evaluate].
  intros tape name Hname.
  assert (children (fs single_world) cp = ["a.jpg"]) as Himg by evaluate.
  apply augment_class_images_names in Hname. rewrite Himg in Hname.
  destruct Hname as [Hin|(n & src & Hn & Hsrc & ->)].
  - left. by apply list_elem_of_singleton in Hin.
  - right. apply list_elem_of_singleton in Hsrc as ->.
    exists n. split; [exact Hn|reflexivity].
Qed.

(** ** Three files and a target of five *)

Section Three_to_five.
Context `{ImageLib}.

Lemma augment_try_saves cp src d w b nb :
  fs w !! os_path_join cp src = Some (File b) → img_decode b = true →
  written d = Saves nb →
  fs w !! os_path_join cp (new_name d src) = None →
  augment_try cp src d w =
  (Return tt,
   World (<[os_path_join cp (new_name d src) := File nb]> (fs w)) (console w)).
Proof.
  intros Hsrc Hdec Hwr Hdst.
  unfold augment_try, bind, image_open_convert, augment_and_save.
  by rewrite Hsrc, Hdec, Hwr, Hdst.
Qed.

(** A round whose draw succeeds under a name the directory does not list
    yet adds one entry. *)
Lemma augment_once_adds images cp d w b nb :
  fs w !! os_path_join cp (random_choice images d) = Some (File b) →
  img_decode b = true → written d = Saves nb →
  new_name d (random_choice images d) ∉ children (fs w) cp →
  ∃ w1, augment_once images cp d w = (Return tt, w1) ∧
        fs w1 = <[os_path_join cp (new_name d (random_choice images d)) := File nb]>
                  (fs w) ∧
        length (children (fs w1) cp) = S (length (children (fs w) cp)).
Proof.
  intros Hsrc Hdec Hwr Hnew.
  assert (fs w !! os_path_join cp (new_name d (random_choice images d)) = None)
    as Hdst.
  { apply eq_None_not_Some. by rewrite <-elem_of_children. }
  eexists. split; [|split].
  - apply augment_once_saved. by eapply augment_try_saves.
  - done.
  - simpl. rewrite !length_children, subdir_insert_child.
    rewrite map_size_insert_None; [done|]. by rewrite lookup_subdir.
Qed.

(** A round that leaves the world as it found it, below the target: the
    loop runs on for as many rounds as it is given. *)
Lemma augment_loop_idle images cp target d w n :
  fs w !! cp = Some Dir → images ≠ [] →
  length (children (fs w) cp) < target →
  augment_once images cp d w = (Return tt, w) →
  augment_loop images cp target (repeat d n) w = (Interrupted, w).
Proof.
  intros Hd Hne Hlt Hfix. induction n as [|n IH]; cbn [repeat].
  - rewrite augment_loop_unfold by done.
    rewrite bool_decide_eq_true_2 by done. by destruct images.
  - rewrite augment_loop_step by done. rewrite Hfix. exact IH.
Qed.

(** Rounds whose transform raises: an error line each, and nothing
    else. *)
Lemma augment_loop_refused images cp target tape w :
  fs w !! cp = Some Dir → images ≠ [] →
  length (children (fs w) cp) < target →
  Forall (λ d, written d = Refuses) tape →
  augment_loop images cp target tape w =
  (Interrupted,
   World (fs w)
         (console w ++ map (λ d, ErrorAugmenting (random_choice images d)) tape)).
Proof.
  intros Hd Hne Hlt Hall. revert w Hd Hlt.
  induction Hall as [|d tape Hwr Hall IH]; intros w Hd Hlt.
  - rewrite augment_loop_unfold by done.
    rewrite bool_decide_eq_true_2 by done.
    destruct images; [done|]. simpl. rewrite app_nil_r. by destruct w.
  - rewrite augment_loop_step by done.
    destruct (augment_try_cases cp (random_choice images d) d w)
      as [[e Hr]|[(b & old & part & _ & _ & Hwr' & _)
                 |(b & nb & _ & _ & Hwr' & _)]]; [|congruence..].
    rewrite (augment_once_caught _ _ _ _ _ _ Hr). cbn [snd].
    rewrite IH by done. cbn [fs console map]. by rewrite <-app_assoc.
Qed.

(** The names a directory of five entries has beyond the three it had. *)
Lemma two_new_names (before after : list string) :
  NoDup before → NoDup after →
  length before = 3 → length after = 5 →
  (∀ f, f ∈ before → f ∈ after) →
  ∃ n1 n2, n1 ≠ n2 ∧ (n1 ∉ before) ∧ (n2 ∉ before) ∧
           n1 ∈ after ∧ n2 ∈ after ∧ after ≡ₚ n1 :: n2 :: before.
Proof.
  intros Hbefore Hafter Hlb Hla Hsub.
  assert (filter (λ x, x ∈ before) after ≡ₚ before) as Hkept.
  { apply NoDup_Permutation; [by apply NoDup_filter|done|].
    intros x. rewrite list_elem_of_filter. split; [by intros [? _]|].
    intros Hx. split; [done|by apply Hsub]. }
  pose proof (filter_app_complement (λ x, x ∈ before) after) as Hsplit.
  rewrite Hkept in Hsplit.
  assert (length (filter (λ x, x ∉ before) after) = 2) as Hlen.
  { apply Permutation_length in Hsplit. rewrite length_app in Hsplit. lia. }
  assert (NoDup (filter (λ x, x ∉ before) after)) as Hnd
    by (by apply NoDup_filter).
  assert (∀ x, x ∈ filter (λ x, x ∉ before) after → (x ∉ before) ∧ x ∈ after)
    as Hin.
  { intros x. by rewrite list_elem_of_filter. }
  destruct (filter (λ x, x ∉ before) after) as [|n1 [|n2 [|? ?]]];
    simplify_eq/=.
  exists n1, n2.
  destruct (Hin n1) as [? ?]; [by left|].
  destruct (Hin n2) as [? ?]; [by right; left|].
  split_and!; try done.
  - apply NoDup_cons in Hnd as [Hn1 _]. intros ->. apply Hn1. by left.
  - rewrite <-Hsplit. by rewrite (comm (++) before).
Qed.

(** C6, as the code has it.  Take a class directory of exactly three
    entries, all three sound [.jpg] files, and a target of five.  A call
    that returns leaves exactly five entries: the three it started with,
    every original among them with the bytes it had, and two new files
    whose names read [aug_], five digits, [_] and the name of one of the
    three.  The call does return, after two rounds, when its first two
    draws are saved under two different names that the directory does not
    hold; and whatever the draws, it never ends in an exception. *)
Theorem three_files_grow_to_five (cp : path) (w : world) :
  fs w !! cp = Some Dir →
  length (children (fs w) cp) = 3 →
  (∀ f, f ∈ children (fs w) cp →
        ∃ b, fs w !! os_path_join cp f = Some (File b) ∧
             img_decode b = true ∧
             Str.endswith (Str.lower f) [".jpg"] = true) →
  let listed := children (fs w) cp in
  (∀ tape tape' w',
     augment_class_images cp 5 tape w = (Return tape', w') →
     length (children (fs w') cp) = 5 ∧
     (∀ f, f ∈ listed → f ∈ children (fs w') cp) ∧
     (∀ f, f ∈ listed → is_original f = true →
           fs w' !! os_path_join cp f = fs w !! os_path_join cp f) ∧
     (∀ f, f ∈ listed → ¬ aug_name_of listed f →
           fs w' !! os_path_join cp f = fs w !! os_path_join cp f) ∧
     ∃ new1 new2,
       new1 ≠ new2 ∧ (new1 ∉ listed) ∧ (new2 ∉ listed) ∧
       children (fs w') cp ≡ₚ new1 :: new2 :: listed ∧
       (∃ o1, o1 ∈ listed ∧ matches_aug_pattern new1 o1 = true) ∧
       (∃ o2, o2 ∈ listed ∧ matches_aug_pattern new2 o2 = true)) ∧
  (∀ d1 d2 rest b1 b2,
     written d1 = Saves b1 → written d2 = Saves b2 →
     let name1 := new_name d1 (random_choice listed d1) in
     let name2 := new_name d2 (random_choice listed d2) in
     name1 ∉ listed → name2 ∉ listed → name1 ≠ name2 →
     (augment_class_images cp 5 (d1 :: d2 :: rest) w).1 = Return rest) ∧
  (∀ tape e, (augment_class_images cp 5 tape w).1 ≠ Raised e).
Proof.
  intros Hd Hlen Hvalid listed.
  assert (listed ≠ []) as Hne.
  { intros Hnil. unfold listed in Hnil. by rewrite Hnil in Hlen. }
  split; [|split]; [| |intros tape e; rewrite augment_class_images_unfold by done;
    destruct (augment_loop_spec listed cp 5 tape
                (World (fs w) (console w ++ [Augmenting cp (length listed) 5])))
      as (r & w' & Hrun & _ & _ & Hnr & _); [done..|];
    fold listed; rewrite Hrun; apply Hnr].
  - intros tape tape' w' Hrun.
    pose proof Hrun as (_ & Hfr & Hcnt & _)%augment_class_images_Return.
    fold listed in Hfr. rewrite Hlen in Hcnt. simpl in Hcnt.
    assert (∀ f, f ∈ listed → f ∈ children (fs w') cp) as Hsub.
    { intros f. unfold listed. rewrite !elem_of_children.
      by apply (only_augmented_is_Some cp listed). }
    assert (∀ f, ¬ aug_name_of listed f →
                 fs w' !! os_path_join cp f = fs w !! os_path_join cp f) as Hsame.
    { intros f Hshape.
      destruct (Hfr (os_path_join cp f)) as [Heq|(name & b & Hname & Hq & _)];
        [done|].
      apply os_path_join_inj in Hq as [_ ->]. done. }
    split_and!; [done|done| |by auto|].
    + intros f _ Horig. apply Hsame. intros (n & src & _ & _ & ->).
      by rewrite aug_name_not_original in Horig.
    + destruct (two_new_names listed (children (fs w') cp))
        as (n1 & n2 & Hne12 & Hn1 & Hn2 & Hin1 & Hin2 & Hperm);
        [apply NoDup_children..|done|done|done|].
      assert (∀ n, n ∈ children (fs w') cp → n ∉ listed →
                   ∃ o, o ∈ listed ∧ matches_aug_pattern n o = true) as Hpat.
      { intros n Hin Hnew.
        assert (n ∈ children (fs (augment_class_images cp 5 tape w).2) cp)
          as Hin' by (by rewrite Hrun).
        apply augment_class_images_names in Hin'
          as [?|(k & src & Hk & Hsrc & ->)]; [done|].
        exists src. split; [done|]. by apply aug_name_matches. }
      exists n1, n2. split_and!; auto.
  - intros d1 d2 rest b1 b2 Hw1 Hw2 name1 name2 Hn1 Hn2 Hne12.
    rewrite augment_class_images_unfold by done. fold listed.
    set (w0 := World (fs w) (console w ++ [Augmenting cp (length listed) 5])).
    destruct (Hvalid (random_choice listed d1))
      as (s1 & Hs1 & Hdec1 & _); [by apply random_choice_elem_of|].
    destruct (Hvalid (random_choice listed d2))
      as (s2 & Hs2 & Hdec2 & _); [by apply random_choice_elem_of|].
    assert (fs w0 !! cp = Some Dir) as Hd0 by done.
    assert (length (children (fs w0) cp) = 3) as Hc0 by done.
    destruct (augment_once_adds listed cp d1 w0 s1 b1)
      as (w1 & Hone & Hfs1 & Hc1); [done..|].
    rewrite augment_loop_step, Hone by (done || lia). cbn [snd].
    assert (fs w1 !! cp = Some Dir) as Hd1.
    { rewrite Hfs1, lookup_insert_ne; [done|]. apply os_path_join_ne_self. }
    destruct (augment_once_adds listed cp d2 w1 s2 b2)
      as (w2 & Htwo & Hfs2 & Hc2); [| done..| |].
    { rewrite Hfs1, lookup_insert_ne; [done|].
      intros Heq. apply os_path_join_inj in Heq as [_ Heq].
      apply Hn1. fold name1 in Heq. rewrite Heq.
      by apply random_choice_elem_of. }
    { rewrite elem_of_children, Hfs1. fold name1 name2.
      rewrite lookup_insert_ne.
      - by rewrite <-elem_of_children.
      - intros Heq. by apply os_path_join_inj in Heq as [_ ?]. }
    rewrite augment_loop_step, Htwo by (done || lia). cbn [snd].
    rewrite augment_loop_exit; [done| |lia].
    rewrite Hfs2, lookup_insert_ne; [done|]. apply os_path_join_ne_self.
Qed.

End Three_to_five.

Lemma three_files_grow_to_five_witness :
  let cp := os_path_join TRAIN_DIR "cat" in
  (augment_class_images (H := sample_lib) cp 5 trio_tape trio_world).1
    = Return [Draw 2 2 (Saves "R")].
Proof.
  intros cp.
  refine (proj1 (proj2 (three_files_grow_to_five (H := sample_lib) cp trio_world
                          _ _ _))
            (Draw 0 0 (Saves "P")) (Draw 1 1 (Saves "Q")) [Draw 2 2 (Saves "R")]
            "P" "Q" eq_refl eq_refl _ _ _).
  - evaluate.
  - evaluate.
  - intros f Hf.
    assert (children (fs trio_world) cp = ["c.jpg"; "a.jpg"; "b.jpg"]) as Himg
      by evaluate.
    rewrite Himg in Hf.
    repeat (apply elem_of_cons in Hf as [->|Hf]);
      [exists "C"; evaluate|exists "A"; evaluate|exists "B"; evaluate|].
    inversion Hf.
  - evaluate_decision.
  - evaluate_decision.
  - evaluate_decision.
Defined.

(** C6 as the spec words it fails: the call need not terminate.
    [trio_world] holds three sound [.jpg] files, all three originals.
    When every round picks the same source and draws the same number, the
    first round adds a file and every later round writes that file again:
    after any number of rounds the directory lists four entries and the
    loop wants one more round.  When the transform of every round raises,
    it still lists three.  Two colliding rounds and a failing one are run
    as an instance. *)
Lemma three_files_still_running :
  let cp := os_path_join TRAIN_DIR "cat" in
  let call := augment_class_images (H := sample_lib) cp 5 in
  children (fs trio_world) cp = ["c.jpg"; "a.jpg"; "b.jpg"] ∧
  forallb (λ f, match fs trio_world !! os_path_join cp f with
                | Some (File b) =>
                    img_decode (ImageLib := sample_lib) b &&
                    Str.endswith (Str.lower f) [".jpg"] && is_original f
                | _ => false
                end) (children (fs trio_world) cp) = true ∧
  (call [same_draw; same_draw; failing_draw] trio_world).1 = Interrupted ∧
  children (fs (call [same_draw; same_draw; failing_draw] trio_world).2) cp
    = ["c.jpg"; "aug_10000_c.jpg"; "a.jpg"; "b.jpg"] ∧
  (∀ n, (call (repeat same_draw (S n)) trio_world).1 = Interrupted ∧
        length (children (fs (call (repeat same_draw (S n)) trio_world).2) cp)
          = 4) ∧
  (∀ n, (call (repeat failing_draw n) trio_world).1 = Interrupted ∧
        length (children (fs (call (repeat failing_draw n) trio_world).2) cp)
          = 3).
Proof.
  intros cp call.
  split; [evaluate|]. split; [evaluate|]. split; [evaluate|]. split; [evaluate|].
  set (images := children (fs trio_world) cp).
  set (w0 := World (fs trio_world)
                   (console trio_world ++ [Augmenting cp (length images) 5])).
  assert (fs trio_world !! cp = Some Dir) as Hd by (vm_compute; reflexivity).
  assert (images ≠ []) as Hne by (vm_compute; discriminate).
  assert (length (children (fs w0) cp) < 5) as Hlt0 by (vm_compute; lia).
  split.
  - intros n. unfold call. rewrite augment_class_images_unfold by exact Hd.
    fold images w0. cbn [repeat].
    rewrite (augment_loop_step (H := sample_lib) images cp 5 same_draw _ w0 Hd Hne Hlt0).
    set (w1 := (augment_once (H := sample_lib) images cp same_draw w0).2).
    assert (length (children (fs w1) cp) = 4) as Hlen1 by (vm_compute; reflexivity).
    rewrite (augment_loop_idle (H := sample_lib) images cp 5 same_draw w1 n).
    + split; [reflexivity|exact Hlen1].
    + vm_compute; reflexivity.
    + exact Hne.
    + rewrite Hlen1. lia.
    + vm_compute; reflexivity.
  - intros n. unfold call. rewrite augment_class_images_unfold by exact Hd.
    fold images w0.
    rewrite (augment_loop_refused (H := sample_lib) images cp 5
               (repeat failing_draw n) w0 Hd Hne Hlt0).
    + split; [reflexivity|]. cbn [fs snd]. vm_compute; reflexivity.
    + induction n as [|n IH]; cbn [repeat]; by constructor.
Qed.


(** * Further properties *)

(** ** Listing the classes *)

Lemma list_classes_reads base w : (list_classes base w).2 = w.
Proof.
  destruct (fs w !! base) as [[b|]|] eqn:Hb.
  - unfold list_classes, bind, os_listdir. by rewrite Hb.
  - by rewrite list_classes_Dir.
  - unfold list_classes, bind, os_listdir. by rewrite Hb.
Qed.

(** X1. [list_classes] reads and never writes.  On a directory it returns
    the names of its subdirectories, plain files left out, in ascending
    order and without repetition; on a path that holds a file it raises
    [NotADirectoryError], and on a path that holds nothing
    [FileNotFoundError]. *)
Theorem list_classes_outcome (base : path) (w : world) :
  (list_classes base w).2 = w ∧
  match fs w !! base with
  | Some Dir =>
      ∃ l, (list_classes base w).1 = Return l ∧
           StronglySorted String.le l ∧ NoDup l ∧
           ∀ c, c ∈ l ↔ fs w !! os_path_join base c = Some Dir
  | Some (File _) => (list_classes base w).1 = Raised NotADirectoryError
  | None => (list_classes base w).1 = Raised FileNotFoundError
  end.
Proof.
  destruct (fs w !! base) as [[b|]|] eqn:Hb.
  - unfold list_classes, bind, os_listdir. by rewrite Hb.
  - rewrite list_classes_Dir by done. split; [done|].
    exists (class_names (fs w) base). split_and!; [done| | |].
    + apply Sorted_class_names.
    + apply NoDup_class_names.
    + intros c. apply elem_of_class_names.
  - unfold list_classes, bind, os_listdir. by rewrite Hb.
Qed.

(** ** The counts *)

Lemma dict_get_set d k v k' :
  dict_get (dict_set d k v) k' = if decide (k' = k) then Some v else dict_get d k'.
Proof.
  induction d as [|[k0 v0] d IH]; simpl.
  - done.
  - destruct (decide (k = k0)) as [->|Hne]; simpl.
    + by destruct (decide (k' = k0)).
    + rewrite IH. repeat case_decide; by simplify_eq.
Qed.

Lemma dict_get_foldl (f : string → nat) classes acc k :
  dict_get (foldl (λ d c, dict_set d c (f c)) acc classes) k =
  if decide (k ∈ classes) then Some (f k) else dict_get acc k.
Proof.
  revert acc. induction classes as [|c classes IH]; intros acc; cbn [foldl].
  - case_decide as Hin; [by apply elem_of_nil in Hin|done].
  - rewrite IH, dict_get_set.
    repeat case_decide; simplify_eq; try done; exfalso.
    + match goal with Hn : _ ∉ _ |- _ => apply Hn end. by right.
    + match goal with Hn : _ ∉ _ :: _ |- _ => apply Hn end. by left.
    + match goal with Hin : _ ∈ _ :: _ |- _ =>
        apply elem_of_cons in Hin as [?|?] end; done.
Qed.

Lemma dict_get_count_table (fs0 : filesystem) base c :
  dict_get (count_table fs0 base) c =
  if decide (fs0 !! os_path_join base c = Some Dir)
  then Some (image_count fs0 (os_path_join base c)) else None.
Proof.
  unfold count_table. rewrite dict_get_foldl. simpl.
  destruct (decide (c ∈ class_names fs0 base)) as [Hin|Hnin].
  - rewrite decide_True; [done|]. by apply elem_of_class_names.
  - rewrite decide_False; [done|]. by rewrite <-elem_of_class_names.
Qed.

(** X2. On a split directory the count mapping holds, for every
    subdirectory, the number of names in it whose lowered form ends in
    [jpg], [jpeg] or [png], and holds nothing for any other name.  The count
    goes by names alone, whatever the entries are, and never exceeds the
    number of entries. *)
Theorem count_images_values (base : path) (w : world) :
  fs w !! base = Some Dir →
  ∃ counts,
    (count_images_in_classes base w).1 = Return counts ∧
    (∀ c, fs w !! os_path_join base c = Some Dir →
          dict_get counts c =
          Some (length (filter (λ f, Str.endswith (Str.lower f) image_suffixes)
                               (children (fs w) (os_path_join base c))))) ∧
    (∀ c, fs w !! os_path_join base c ≠ Some Dir → dict_get counts c = None) ∧
    (∀ c n, dict_get counts c = Some n →
            n ≤ length (children (fs w) (os_path_join base c))).
Proof.
  intros Hb. exists (count_table (fs w) base).
  rewrite count_images_Dir by done. split_and!; [done| | |].
  - intros c Hc. rewrite dict_get_count_table. by rewrite decide_True.
  - intros c Hc. rewrite dict_get_count_table. by rewrite decide_False.
  - intros c n. rewrite dict_get_count_table. case_decide; [|done].
    intros ?; simplify_eq. apply length_filter.
Qed.

Lemma count_images_values_witness :
  ∃ counts,
    (count_images_in_classes TRAIN_DIR sample_world).1 = Return counts ∧
    dict_get counts "cat" = Some 2 ∧ dict_get counts "README" = None.
Proof.
  destruct (count_images_values TRAIN_DIR sample_world)
    as (counts & Hrun & Hdir & Hnot & _); [evaluate|].
  exists counts. split_and!; [done| |].
  - etrans; [apply Hdir; evaluate|]. evaluate.
  - apply Hnot. evaluate.
Defined.

(** X3. Statistics collection raises only when the path it is given is no
    directory: [NotADirectoryError] on a file, [FileNotFoundError] on
    nothing.  On a directory it always returns, empty class directories
    and class directories full of other things included. *)
Theorem count_images_outcome (base : path) (w : world) :
  match fs w !! base with
  | Some Dir => ∃ counts, (count_images_in_classes base w).1 = Return counts
  | Some (File _) =>
      (count_images_in_classes base w).1 = Raised NotADirectoryError
  | None => (count_images_in_classes base w).1 = Raised FileNotFoundError
  end.
Proof.
  destruct (fs w !! base) as [[b|]|] eqn:Hb.
  - unfold count_images_in_classes, bind, list_classes, bind, os_listdir.
    by rewrite Hb.
  - rewrite count_images_Dir by done. by eexists.
  - unfold count_images_in_classes, bind, list_classes, bind, os_listdir.
    by rewrite Hb.
Qed.

(** ** More on the cleanup *)

(** A [for] loop keeps what every round keeps, however it ends. *)
Lemma for_preserves {A} (R : relation world) `{!PreOrder R}
    (l : list A) (body : A → M unit) :
  (∀ x w, R w (body x w).2) → ∀ w, R w (for_ l body w).2.
Proof.
  intros Hbody. induction l as [|x l IH]; intros w; simpl.
  - reflexivity.
  - unfold bind. pose proof (Hbody x w) as Hx.
    destruct (body x w) as [[[]|e|] w1]; simpl in *; [|done..].
    etrans; [exact Hx|apply IH].
Qed.

Global Instance only_class_files_removed_preorder base :
  PreOrder (λ w w', only_class_files_removed base (fs w) (fs w')).
Proof.
  split.
  - intros w q. by left.
  - intros w1 w2 w3 H12 H23 q.
    destruct (H23 q) as [Heq|(Hnone & cls & f & b & Hq & Hd & Hb)].
    + rewrite Heq. apply H12.
    + right. split; [done|]. exists cls, f, b. split; [done|].
      assert (∀ p x, fs w2 !! p = Some x → fs w1 !! p = Some x) as Hback.
      { intros p x Hp. destruct (H12 p) as [Hp'|[Hp' _]]; congruence. }
      split; by apply Hback.
Qed.

Global Instance only_files_removed_at_preorder (P : path → Prop) :
  PreOrder (λ w w', only_files_removed_at P (fs w) (fs w')).
Proof.
  split.
  - intros w q. by left.
  - intros w1 w2 w3 H12 H23 q.
    destruct (H23 q) as [Heq|(Hnone & HP & b & Hb)].
    + rewrite Heq. apply H12.
    + right. split_and!; [done..|]. exists b.
      destruct (H12 q) as [Hq|[Hq _]]; congruence.
Qed.

Section Cleanup_more.
Context `{ImageLib}.

Lemma clean_file_run' cls_path fname w :
  clean_file cls_path fname w =
  match fs w !! os_path_join cls_path fname with
  | Some (File b) =>
      if keeps fname b then (Return tt, w)
      else (Return tt,
            World (delete (os_path_join cls_path fname) (fs w))
                  (console w ++
                     [removal_line fname (os_path_join cls_path fname)]))
  | Some Dir =>
      (Raised IsADirectoryError,
       World (fs w)
             (console w ++ [removal_line fname (os_path_join cls_path fname)]))
  | None =>
      (Raised FileNotFoundError,
       World (fs w)
             (console w ++ [removal_line fname (os_path_join cls_path fname)]))
  end.
Proof. apply clean_file_run. Qed.

(** The inner loop removes files of its own directory and nothing else,
    however it ends. *)
Lemma clean_files_frame cls_path fnames w :
  only_files_removed_at (λ q, ∃ f, q = os_path_join cls_path f) (fs w)
    (fs (for_ fnames (clean_file cls_path) w).2).
Proof.
  apply (for_preserves
           (λ w w', only_files_removed_at
                      (λ q, ∃ f, q = os_path_join cls_path f) (fs w) (fs w'))).
  intros f w2 q. rewrite clean_file_run'.
  destruct (fs w2 !! os_path_join cls_path f) as [[b|]|] eqn:Hf; simpl;
    [|by left..].
  destruct (keeps f b); simpl; [by left|].
  destruct (decide (q = os_path_join cls_path f)) as [->|Hne];
    [|left; by rewrite lookup_delete_ne].
  right. rewrite lookup_delete_eq. split_and!; [done|by exists f|by exists b].
Qed.

Lemma clean_class_frame base cls w :
  only_class_files_removed base (fs w)
    (fs ((fnames ← os_listdir (os_path_join base cls) ;
          for_ fnames (clean_file (os_path_join base cls))) w).2).
Proof.
  unfold bind at 1.
  destruct (os_listdir (os_path_join base cls) w) as [[fnames|e|] w1] eqn:Hls.
  - apply os_listdir_Return in Hls as (Hd & _ & ->). intros q.
    destruct (clean_files_frame (os_path_join base cls) fnames w q)
      as [Heq|(Hnone & [f ->] & b & Hb)]; [by left|right].
    split; [done|]. by exists cls, f, b.
  - unfold os_listdir in Hls.
    destruct (fs w !! os_path_join base cls) as [[b|]|]; simplify_eq; by left.
  - unfold os_listdir in Hls.
    destruct (fs w !! os_path_join base cls) as [[b|]|]; simplify_eq.
Qed.

Lemma cleanup_frame base w :
  only_class_files_removed base (fs w)
    (fs (remove_corrupted_and_non_images base w).2).
Proof.
  unfold remove_corrupted_and_non_images.
  rewrite (bind_Return _ _ w tt (World (fs w) (console w ++ [Checking base])))
    by done.
  unfold bind at 1.
  pose proof (list_classes_reads base
                (World (fs w) (console w ++ [Checking base]))) as Hsame.
  destruct (list_classes base (World (fs w) (console w ++ [Checking base])))
    as [[classes|e|] w1]; simpl in Hsame; subst w1; [|by left..].
  apply (for_preserves
           (λ w w', only_class_files_removed base (fs w) (fs w'))
           classes _ (λ cls w, clean_class_frame base cls w)
           (World (fs w) (console w ++ [Checking base]))).
Qed.

(** X6. However the cleanup of a split directory ends, what it has done to
    the file system is to remove files that lay directly in class
    directories of that split: every other path holds what it held, no
    directory is gone, and nothing is new.  The other splits and the stray
    files beside the class directories are out of its reach. *)
Theorem cleanup_touches_class_files_only (base : path) (w : world) :
  let w' := (remove_corrupted_and_non_images base w).2 in
  only_class_files_removed base (fs w) (fs w') ∧
  (∀ q, fs w !! q = Some Dir → fs w' !! q = Some Dir) ∧
  (∀ q x, fs w' !! q = Some x → fs w !! q = Some x) ∧
  (∀ q, (∀ cls f, q ≠ os_path_join (os_path_join base cls) f) →
        fs w' !! q = fs w !! q).
Proof.
  intros w'. pose proof (cleanup_frame base w) as Hfr. fold w' in Hfr.
  split_and!; [done| | |].
  - intros q Hq. destruct (Hfr q) as [Heq|(_ & ? & ? & ? & _ & _ & ?)]; congruence.
  - intros q x Hq. destruct (Hfr q) as [Heq|[? _]]; congruence.
  - intros q Hq. destruct (Hfr q) as [Heq|(_ & cls & f & ? & -> & _)]; [done|].
    by destruct (Hq cls f).
Qed.

(** *** When the cleanup completes *)

Lemma clean_files_raises cls_path fnames w :
  NoDup fnames →
  (∀ f, f ∈ fnames → is_Some (fs w !! os_path_join cls_path f)) →
  (∃ f, f ∈ fnames ∧ fs w !! os_path_join cls_path f = Some Dir) →
  (for_ fnames (clean_file cls_path) w).1 = Raised IsADirectoryError.
Proof.
  revert w. induction fnames as [|f0 fnames IH]; intros w Hnd Hall (f & Hf & Hdir).
  { by apply elem_of_nil in Hf. }
  apply NoDup_cons in Hnd as [Hf0 Hnd]. simpl. unfold bind.
  rewrite clean_file_run'.
  destruct (fs w !! os_path_join cls_path f0) as [[b|]|] eqn:Hb0.
  - assert (f ∈ fnames) as Hin.
    { apply elem_of_cons in Hf as [->|?]; [congruence|done]. }
    assert (∀ w1, (∀ g, g ≠ f0 → fs w1 !! os_path_join cls_path g =
                                   fs w !! os_path_join cls_path g) →
                  (for_ fnames (clean_file cls_path) w1).1 =
                  Raised IsADirectoryError) as Hrest.
    { intros w1 Hoth. apply IH; [done| |].
      - intros g Hg. rewrite Hoth by (intros ->; done). apply Hall. by right.
      - exists f. split; [done|]. by rewrite Hoth by (intros ->; done). }
    destruct (keeps f0 b); simpl; apply Hrest; [done|].
    intros g Hg. simpl. rewrite lookup_delete_ne; [done|].
    intros Heq. by apply os_path_join_inj in Heq as [_ ->].
  - done.
  - destruct (Hall f0) as [x Hx]; [by left|congruence].
Qed.

Lemma clean_classes_raises base classes w :
  (∀ c, c ∈ classes → fs w !! os_path_join base c = Some Dir) →
  (∃ c f, c ∈ classes ∧
          fs w !! os_path_join (os_path_join base c) f = Some Dir) →
  (for_ classes (λ cls,
     let cls_path := os_path_join base cls in
     fnames ← os_listdir cls_path ;
     for_ fnames (clean_file cls_path)) w).1 = Raised IsADirectoryError.
Proof.
  revert w. induction classes as [|c0 classes IH];
    intros w Hdirs (c & f & Hc & Hnest).
  { by apply elem_of_nil in Hc. }
  simpl. unfold bind at 1. unfold bind at 1.
  rewrite os_listdir_Dir by (apply Hdirs; by left).
  destruct (decide (Exists (λ g, fs w !! os_path_join (os_path_join base c0) g
                                 = Some Dir)
                           (children (fs w) (os_path_join base c0))))
    as [Hex|Hnone].
  - apply Exists_exists in Hex as (g & Hg & Hgd).
    pose proof (clean_files_raises (os_path_join base c0)
                  (children (fs w) (os_path_join base c0)) w) as Hr.
    destruct (for_ (children (fs w) (os_path_join base c0))
                   (clean_file (os_path_join base c0)) w) as [r w1].
    simpl in Hr. rewrite Hr; [done|apply NoDup_children| |by exists g].
    intros g' Hg'. by apply elem_of_children.
  - assert (∀ g, fs w !! os_path_join (os_path_join base c0) g ≠ Some Dir)
      as Hflat.
    { intros g Hgd. apply Hnone, Exists_exists. exists g. split; [|done].
      apply elem_of_children. by rewrite Hgd. }
    destruct (clean_files_returns (os_path_join base c0)
                (children (fs w) (os_path_join base c0)) w) as [w1 Hone].
    { apply NoDup_children. }
    { intros g [x Hx]%elem_of_children. destruct x as [b|]; [by exists b|].
      by destruct (Hflat g). }
    rewrite Hone.
    apply clean_files_Return in Hone as [Hrm _].
    apply IH.
    + intros c' Hc'. apply (only_rejects_removed_Dir (fs w)); [done|].
      apply Hdirs. by right.
    + exists c, f. split.
      * apply elem_of_cons in Hc as [->|?]; [by destruct (Hflat f)|done].
      * by apply (only_rejects_removed_Dir (fs w)).
Qed.

(** X4. The cleanup of a split directory completes exactly when no class
    directory holds a directory of its own.  When one does, the cleanup
    ends in an [IsADirectoryError] that nothing catches: [os.remove] is
    called on the directory, from the branch for the names that fail the
    suffix test or from the handler of the failed verification. *)
Theorem cleanup_completes_iff_flat (base : path) (w : world) :
  fs w !! base = Some Dir →
  (¬ has_nested_directory base (fs w) →
   ∃ w', remove_corrupted_and_non_images base w = (Return tt, w')) ∧
  (has_nested_directory base (fs w) →
   (remove_corrupted_and_non_images base w).1 = Raised IsADirectoryError).
Proof.
  intros Hb. split.
  - intros Hflat. apply cleanup_returns; [done|].
    intros cls f Hd Hn. apply Hflat. by exists cls, f.
  - intros (cls & f & Hd & Hn). unfold remove_corrupted_and_non_images.
    rewrite (bind_Return _ _ w tt (World (fs w) (console w ++ [Checking base])))
      by done.
    rewrite (bind_Return _ _ _ _ _
               (list_classes_Dir base (World (fs w) (console w ++ [Checking base])) Hb)).
    apply clean_classes_raises; simpl.
    + intros c. apply elem_of_class_names.
    + exists cls, f. split; [by apply elem_of_class_names|done].
Qed.

(** *** A second pass *)

Lemma clean_files_noop cls_path fnames w :
  (∀ f, f ∈ fnames → ∃ b, fs w !! os_path_join cls_path f = Some (File b) ∧
                          keeps f b = true) →
  for_ fnames (clean_file cls_path) w = (Return tt, w).
Proof.
  induction fnames as [|f0 fnames IH]; intros Hall; [done|]. simpl.
  destruct (Hall f0) as (b & Hb & Hk); [by left|].
  assert (clean_file cls_path f0 w = (Return tt, w)) as Hone.
  { by rewrite clean_file_run', Hb, Hk. }
  rewrite (bind_Return _ _ _ _ _ Hone). apply IH.
  intros f Hf. apply Hall. by right.
Qed.

Lemma clean_classes_noop base classes w :
  (∀ c, c ∈ classes → fs w !! os_path_join base c = Some Dir ∧
                      all_kept (fs w) (os_path_join base c)) →
  for_ classes (λ cls,
    let cls_path := os_path_join base cls in
    fnames ← os_listdir cls_path ;
    for_ fnames (clean_file cls_path)) w = (Return tt, w).
Proof.
  induction classes as [|c0 classes IH]; intros Hall; [done|]. simpl.
  destruct (Hall c0) as [Hd Hk]; [by left|].
  assert ((fnames ← os_listdir (os_path_join base c0) ;
           for_ fnames (clean_file (os_path_join base c0))) w = (Return tt, w))
    as Hone.
  { rewrite (bind_Return _ _ _ _ _ (os_listdir_Dir _ _ Hd)).
    apply clean_files_noop. intros f [x Hx]%elem_of_children.
    destruct (Hk f x Hx) as (b & -> & Hkb). by exists b. }
  rewrite (bind_Return _ _ _ _ _ Hone). apply IH.
  intros c Hc. apply Hall. by right.
Qed.

(** X5. The cleanup is idempotent on the file system: run again on what a
    completed pass has left, it completes, removes nothing, and prints its
    opening line and no other. *)
Theorem cleanup_twice (base : path) (w w' : world) :
  remove_corrupted_and_non_images base w = (Return tt, w') →
  remove_corrupted_and_non_images base w' =
    (Return tt, World (fs w') (console w' ++ [Checking base])).
Proof.
  intros Hrun. unfold remove_corrupted_and_non_images in Hrun.
  apply bind_Return_inv in Hrun as ([] & w0 & Hprint & Hrun).
  unfold print in Hprint. simplify_eq.
  apply bind_Return_inv in Hrun as (classes & w1 & Hcls & Hrun).
  apply list_classes_Return in Hcls as (Hb & -> & ->). simpl in *.
  apply clean_classes_Return in Hrun as [Hrm Hkept]. simpl in *.
  assert (fs w' !! base = Some Dir) as Hb'
    by (by apply (only_rejects_removed_Dir (fs w))).
  unfold remove_corrupted_and_non_images.
  rewrite (bind_Return _ _ w' tt (World (fs w') (console w' ++ [Checking base])))
    by done.
  rewrite (bind_Return _ _ _ _ _
             (list_classes_Dir base (World (fs w') (console w' ++ [Checking base]))
                Hb')).
  apply clean_classes_noop. simpl. intros c Hc%elem_of_class_names.
  split; [done|]. apply Hkept, elem_of_class_names.
  by apply (only_rejects_removed_Some (fs w) (fs w')).
Qed.

(** *** What the cleanup prints *)

(** The line of a removal names the path removed. *)
Lemma removal_line_inj f1 p1 f2 p2 :
  removal_line f1 p1 = removal_line f2 p2 → p1 = p2.
Proof.
  unfold removal_line.
  destruct (Str.endswith (Str.lower f1) image_suffixes),
           (Str.endswith (Str.lower f2) image_suffixes); congruence.
Qed.

Lemma elem_of_removal_of (fs0 : filesystem) (cp : path) (f : string) e :
  e ∈ removal_of fs0 cp f ↔
  ∃ b, fs0 !! os_path_join cp f = Some (File b) ∧ keeps f b = false ∧
       e = removal_line f (os_path_join cp f).
Proof.
  unfold removal_of.
  destruct (fs0 !! os_path_join cp f) as [[b|]|] eqn:Hf.
  - destruct (keeps f b) eqn:Hk.
    + split; [by intros ?%elem_of_nil|]. intros (b' & ? & ? & _). congruence.
    + rewrite list_elem_of_singleton. split; [intros ->; by exists b|].
      by intros (b' & _ & _ & ->).
  - split; [by intros ?%elem_of_nil|]. by intros (b' & ? & _).
  - split; [by intros ?%elem_of_nil|]. by intros (b' & ? & _).
Qed.

Lemma NoDup_removal_of (fs0 : filesystem) (cp : path) (f : string) :
  NoDup (removal_of fs0 cp f).
Proof.
  unfold removal_of. destruct (fs0 !! os_path_join cp f) as [[b|]|];
    [destruct (keeps f b)|..]; try apply NoDup_nil_2. apply NoDup_singleton.
Qed.

Lemma flat_map_agree {A B} (f g : A → list B) (l : list A) :
  (∀ x, x ∈ l → f x = g x) → flat_map f l = flat_map g l.
Proof.
  induction l as [|x l IH]; intros Hfg; [done|]. cbn [flat_map].
  rewrite Hfg by (by left). f_equal. apply IH. intros y Hy. apply Hfg. by right.
Qed.

Lemma elem_of_flat_map {A B} (f : A → list B) (l : list A) (y : B) :
  y ∈ flat_map f l ↔ ∃ x, x ∈ l ∧ y ∈ f x.
Proof.
  induction l as [|x l IH]; cbn [flat_map].
  - split; [by intros ?%elem_of_nil|]. by intros (x & ?%elem_of_nil & _).
  - rewrite elem_of_app, IH. split.
    + intros [Hy|(x' & Hx' & Hy)]; [exists x; split; [by left|done]|].
      exists x'. split; [by right|done].
    + intros (x' & Hx' & Hy). apply elem_of_cons in Hx' as [->|Hx'];
        [by left|right; by exists x'].
Qed.

(** Lists without repetition whose elements tell them apart flatten to a
    list without repetition. *)
Lemma NoDup_flat_map {A B} (f : A → list B) (l : list A) :
  NoDup l → (∀ x, x ∈ l → NoDup (f x)) →
  (∀ x1 x2 y, x1 ∈ l → x2 ∈ l → y ∈ f x1 → y ∈ f x2 → x1 = x2) →
  NoDup (flat_map f l).
Proof.
  induction l as [|x l IH]; intros Hl Hf Hsep; cbn [flat_map].
  { apply NoDup_nil_2. }
  apply NoDup_cons in Hl as [Hx Hl]. apply NoDup_app. split_and!.
  - apply Hf. by left.
  - intros y Hy (x' & Hx' & Hy')%elem_of_flat_map.
    assert (x = x') as <-; [|done].
    apply (Hsep x x' y); [by left|by right|done..].
  - apply IH; [done|intros x' Hx'; apply Hf; by right|].
    intros x1 x2 y H1 H2. apply Hsep; by right.
Qed.

Lemma NoDup_removal_lines (fs0 : filesystem) (base : path) :
  NoDup (removal_lines fs0 base).
Proof.
  apply NoDup_flat_map; [apply NoDup_class_names| |].
  - intros cls _. apply NoDup_flat_map; [apply NoDup_children| |].
    + intros f _. apply NoDup_removal_of.
    + intros f1 f2 e _ _ (b1 & _ & _ & ->)%elem_of_removal_of
        (b2 & _ & _ & Heq)%elem_of_removal_of.
      apply removal_line_inj in Heq. by apply os_path_join_inj in Heq as [_ ?].
  - intros c1 c2 e _ _ (f1 & _ & Hf1)%elem_of_flat_map
      (f2 & _ & Hf2)%elem_of_flat_map.
    apply elem_of_removal_of in Hf1 as (b1 & _ & _ & ->).
    apply elem_of_removal_of in Hf2 as (b2 & _ & _ & Heq).
    apply removal_line_inj in Heq. apply os_path_join_inj in Heq as [Heq _].
    by apply os_path_join_inj in Heq as [_ ?].
Qed.

(** The inner loop prints the removal lines of the names it is given, in
    their order, as the file system it starts from has them. *)
Lemma clean_files_console cls_path fnames w w' :
  NoDup fnames →
  for_ fnames (clean_file cls_path) w = (Return tt, w') →
  console w' = console w ++ flat_map (removal_of (fs w) cls_path) fnames.
Proof.
  revert w. induction fnames as [|f0 fnames IH]; intros w Hnd Hrun;
    simpl in Hrun.
  { unfold ret in Hrun. simplify_eq. by rewrite app_nil_r. }
  apply NoDup_cons in Hnd as [Hf0 Hnd].
  apply bind_Return_inv in Hrun as ([] & w1 & Hone & Hrest).
  rewrite clean_file_run' in Hone. cbn [flat_map]. unfold removal_of at 1.
  destruct (fs w !! os_path_join cls_path f0) as [[b0|]|] eqn:Hb0;
    [|simplify_eq..].
  destruct (keeps f0 b0) eqn:Hk0; simplify_eq.
  - by apply IH.
  - rewrite (IH _ Hnd Hrest). cbn [fs console]. rewrite <-app_assoc.
    do 2 f_equal. apply flat_map_agree. intros f Hf. unfold removal_of.
    rewrite lookup_delete_ne; [done|].
    intros Heq. apply os_path_join_inj in Heq as [_ ->]. done.
Qed.

Lemma clean_classes_console base classes w w' :
  NoDup classes →
  for_ classes (λ cls,
    let cls_path := os_path_join base cls in
    fnames ← os_listdir cls_path ;
    for_ fnames (clean_file cls_path)) w = (Return tt, w') →
  console w' =
  console w ++
  flat_map (λ cls, flat_map (removal_of (fs w) (os_path_join base cls))
                            (children (fs w) (os_path_join base cls)))
           classes.
Proof.
  revert w. induction classes as [|c0 classes IH]; intros w Hnd Hrun;
    simpl in Hrun.
  { unfold ret in Hrun. simplify_eq. by rewrite app_nil_r. }
  apply NoDup_cons in Hnd as [Hc0 Hnd].
  apply bind_Return_inv in Hrun as ([] & w1 & Hone & Hrest).
  apply bind_Return_inv in Hone as (fnames & w0 & Hls & Hone).
  apply os_listdir_Return in Hls as (Hd & -> & ->).
  pose proof (clean_files_frame (os_path_join base c0)
                (children (fs w) (os_path_join base c0)) w) as Hfr.
  rewrite Hone in Hfr. cbn [snd] in Hfr.
  apply clean_files_console in Hone; [|apply NoDup_children].
  rewrite (IH _ Hnd Hrest), Hone. cbn [flat_map]. rewrite <-!app_assoc.
  do 2 f_equal. apply flat_map_agree. intros c Hc.
  assert (∀ n, fs w1 !! os_path_join (os_path_join base c) n
               = fs w !! os_path_join (os_path_join base c) n) as Hsame.
  { intros n. destruct (Hfr (os_path_join (os_path_join base c) n))
      as [Heq|(_ & [g Hg] & _)]; [done|].
    apply os_path_join_inj in Hg as [Hg _].
    apply os_path_join_inj in Hg as [_ ->]. done. }
  rewrite (children_ext (fs w1) (fs w) (os_path_join base c)) by done.
  apply flat_map_agree. intros f _. unfold removal_of. by rewrite Hsame.
Qed.

(** X7. A cleanup that completes has printed its opening line and then
    one line for every file it removed, and no other.  The lines after the
    opening one are, class by class in sorted order and name by name in
    the order of the listing, the removal lines of the files that fail the
    test, as the file system had them at the start; no line comes twice;
    and a line is among them exactly when it is the line of a file of a
    class directory that failed the test and is gone: [Deleting non-image]
    when the name fails the suffix test, [Corrupted image removed] when
    the name passes and the bytes do not verify. *)
Theorem cleanup_logs_every_removal (base : path) (w w' : world) :
  remove_corrupted_and_non_images base w = (Return tt, w') →
  let lines := removal_lines (fs w) base in
  console w' = console w ++ Checking base :: lines ∧
  NoDup lines ∧
  ∀ e, e ∈ lines ↔
       ∃ cls f b,
         fs w !! os_path_join base cls = Some Dir ∧
         fs w !! os_path_join (os_path_join base cls) f = Some (File b) ∧
         keeps f b = false ∧
         fs w' !! os_path_join (os_path_join base cls) f = None ∧
         e = if Str.endswith (Str.lower f) image_suffixes
             then CorruptedRemoved (os_path_join (os_path_join base cls) f)
             else DeletingNonImage (os_path_join (os_path_join base cls) f).
Proof.
  intros Hrun lines. unfold remove_corrupted_and_non_images in Hrun.
  apply bind_Return_inv in Hrun as ([] & w0 & Hprint & Hrun).
  unfold print in Hprint. simplify_eq.
  apply bind_Return_inv in Hrun as (classes & w1 & Hcls & Hrun).
  apply list_classes_Return in Hcls as (Hb & -> & ->). cbn [fs console] in *.
  pose proof Hrun as [Hrm Hkept]%clean_classes_Return. cbn [fs] in Hrm.
  apply clean_classes_console in Hrun; [|apply NoDup_class_names].
  cbn [fs console] in Hrun.
  split_and!; [by rewrite Hrun, <-app_assoc|apply NoDup_removal_lines|].
  intros e. unfold lines, removal_lines. rewrite elem_of_flat_map. split.
  - intros (c & Hc & (f & Hf & He)%elem_of_flat_map).
    apply elem_of_removal_of in He as (b & Hfb & Hk & ->).
    exists c, f, b. split_and!; [by apply elem_of_class_names|done|done| |done].
    destruct (Hrm (os_path_join (os_path_join base c) f)) as [Heq|[Hn _]];
      [|done].
    rewrite Hfb in Heq.
    destruct (Hkept c Hc f _ Heq) as (b' & ? & Hk'). simplify_eq. congruence.
  - intros (c & f & b & Hc & Hfb & Hk & _ & ->).
    exists c. split; [by apply elem_of_class_names|].
    apply elem_of_flat_map. exists f. split.
    + apply elem_of_children. by rewrite Hfb.
    + apply elem_of_removal_of. by exists b.
Qed.

(** *** Counting after the cleanup *)

Lemma image_count_all (fs0 : filesystem) cp :
  (∀ f, f ∈ children fs0 cp →
        Str.endswith (Str.lower f) image_suffixes = true) →
  image_count fs0 cp = length (children fs0 cp).
Proof.
  unfold image_count. induction (children fs0 cp) as [|f l IH]; intros Hall.
  - done.
  - rewrite filter_cons_True by (rewrite Hall; [done|by left]).
    cbn [length]. f_equal. apply IH. intros g Hg. apply Hall. by right.
Qed.

Lemma class_names_after_cleanup (base : path) (fs1 fs2 : filesystem) :
  only_class_files_removed base fs1 fs2 →
  class_names fs2 base = class_names fs1 base.
Proof.
  intros Hfr.
  assert (∀ n, fs2 !! os_path_join base n = fs1 !! os_path_join base n) as Heq.
  { intros n. destruct (Hfr (os_path_join base n))
      as [?|(_ & cls & f & b & Hq & _)]; [done|].
    apply os_path_join_inj in Hq as [Hq _].
    by destruct (os_path_join_ne_self base cls). }
  unfold class_names. rewrite (children_ext fs2 fs1 base) by done.
  f_equal. apply list_filter_iff. intros d. by rewrite Heq.
Qed.

(** X8. After a cleanup that completed, the statistics of the same split
    have the classes they would have had before it, a class emptied by the
    cleanup included, and the count of every class is the number of entries
    its directory holds: nothing is left that the count passes over. *)
Theorem counts_after_cleanup (base : path) (w w' : world) :
  remove_corrupted_and_non_images base w = (Return tt, w') →
  ∃ counts,
    (count_images_in_classes base w').1 = Return counts ∧
    dict_keys counts = class_names (fs w) base ∧
    ∀ c, fs w !! os_path_join base c = Some Dir →
         dict_get counts c =
         Some (length (children (fs w') (os_path_join base c))).
Proof.
  intros Hrun.
  pose proof (cleanup_frame base w) as Hfr. rewrite Hrun in Hfr. simpl in Hfr.
  unfold remove_corrupted_and_non_images in Hrun.
  apply bind_Return_inv in Hrun as ([] & w0 & Hprint & Hrun).
  unfold print in Hprint. simplify_eq.
  apply bind_Return_inv in Hrun as (classes & w1 & Hcls & Hrun).
  apply list_classes_Return in Hcls as (Hb & -> & ->). simpl in *.
  apply clean_classes_Return in Hrun as [Hrm Hkept]. simpl in *.
  assert (fs w' !! base = Some Dir) as Hb'
    by (by apply (only_rejects_removed_Dir (fs w))).
  exists (count_table (fs w') base).
  rewrite count_images_Dir by done. split_and!; [done| |].
  - by rewrite dict_keys_count_table, (class_names_after_cleanup base (fs w)).
  - intros c Hc. rewrite dict_get_count_table.
    rewrite decide_True by (by apply (only_rejects_removed_Dir (fs w))).
    f_equal. apply image_count_all. intros f [x Hx]%elem_of_children.
    destruct (Hkept c (proj2 (elem_of_class_names _ _ _) Hc) f x Hx)
      as (b & _ & Hk).
    by apply andb_true_iff in Hk as [? _].
Qed.

End Cleanup_more.

Lemma cleanup_completes_iff_flat_witness :
  (remove_corrupted_and_non_images (H := sample_lib) TRAIN_DIR nested_world).1
    = Raised IsADirectoryError.
Proof.
  refine (proj2 (cleanup_completes_iff_flat (H := sample_lib) TRAIN_DIR
                   nested_world _) _).
  - evaluate.
  - exists "cat", "more". evaluate.
Defined.

Lemma cleanup_twice_witness :
  let run := remove_corrupted_and_non_images (H := sample_lib)
               TRAIN_DIR sample_world in
  (remove_corrupted_and_non_images (H := sample_lib) TRAIN_DIR run.2).1
    = Return tt.
Proof.
  intros run.
  by rewrite (cleanup_twice (H := sample_lib) TRAIN_DIR sample_world run.2
                ltac:(evaluate_run)).
Defined.

Lemma cleanup_logs_every_removal_witness :
  let run := remove_corrupted_and_non_images (H := sample_lib)
               TRAIN_DIR sample_world in
  console run.2 =
    [ Checking TRAIN_DIR;
      DeletingNonImage (TRAIN_DIR ++ ["cat"; "notes.txt"]);
      CorruptedRemoved (TRAIN_DIR ++ ["cat"; "b.PNG"]) ] ∧
  NoDup (removal_lines (H := sample_lib) (fs sample_world) TRAIN_DIR).
Proof.
  intros run.
  destruct (cleanup_logs_every_removal (H := sample_lib) TRAIN_DIR sample_world
              run.2 ltac:(evaluate_run)) as (Hcon & Hnd & _).
  split; [|exact Hnd]. rewrite Hcon. vm_compute. reflexivity.
Defined.

Lemma counts_after_cleanup_witness :
  let run := remove_corrupted_and_non_images (H := sample_lib)
               TRAIN_DIR sample_world in
  ∃ counts, (count_images_in_classes TRAIN_DIR run.2).1 = Return counts ∧
            dict_get counts "cat" = Some 1.
Proof.
  intros run.
  destruct (counts_after_cleanup (H := sample_lib) TRAIN_DIR sample_world
              run.2 ltac:(evaluate_run)) as (counts & Hrun & _ & Hval).
  exists counts. split; [done|].
  etrans; [apply Hval; evaluate|]. evaluate.
Defined.

(** ** More on the augmentation *)

Lemma five_digits_length s : five_digits s = true → String.length s = 5.
Proof.
  destruct s as [|a [|b [|c [|d [|e [|? ?]]]]]]; simpl; by intros.
Qed.

Lemma string_app_inj_length (p1 p2 s1 s2 : string) :
  String.length p1 = String.length p2 →
  p1 +:+ s1 = p2 +:+ s2 → p1 = p2 ∧ s1 = s2.
Proof.
  revert p2. induction p1 as [|a p1 IH]; intros [|b p2] Hlen Heq;
    try discriminate.
  - split; [done|exact Heq].
  - change (String a (p1 +:+ s1) = String b (p2 +:+ s2)) in Heq.
    injection Heq as -> Heq. injection Hlen as Hlen.
    by destruct (IH p2 Hlen Heq) as [-> ->].
Qed.

(** X9. Whatever the draw and whatever the source, the name a round saves
    under follows the convention: [aug_], five decimal digits, [_], and the
    name of the source unchanged. *)
Theorem new_name_follows_convention (d : draw) (img_name : string) :
  matches_aug_pattern (new_name d img_name) img_name = true.
Proof. apply aug_name_matches, random_randint_range. Qed.

(** X10. Two rounds save under the same name only when they picked the
    same source and drew the same number: the name determines both. *)
Theorem new_name_determines_its_draw (d1 d2 : draw)
    (img1 img2 : string) :
  new_name d1 img1 = new_name d2 img2 ↔
  random_randint 10000 99999 d1 = random_randint 10000 99999 d2 ∧ img1 = img2.
Proof.
  split; [|by intros [Hn ->]; unfold new_name; rewrite Hn].
  unfold new_name. intros Heq.
  apply (inj (String.app "aug_")) in Heq.
  apply string_app_inj_length in Heq as [Hp Heq].
  - apply (inj pretty) in Hp. apply (inj (String.app "_")) in Heq. done.
  - rewrite !five_digits_length; [done|..];
      apply pretty_five_digits, random_randint_range.
Qed.

Section Augmentation_more.
Context `{ImageLib}.

(** X11. Called on a path that is no directory, the augmentation raises at
    its first line, [NotADirectoryError] on a file and [FileNotFoundError]
    on nothing, before it prints or draws anything; and step 5 ends the
    same way at a class of the counts whose directory is not there, the
    classes after it left alone. *)
Theorem augmentation_needs_a_directory (cp : path) (target : nat)
    (tape : list draw) (w : world) :
  fs w !! cp ≠ Some Dir →
  let e := match fs w !! cp with
           | Some _ => NotADirectoryError
           | None => FileNotFoundError
           end in
  augment_class_images cp target tape w = (Raised e, w) ∧
  (∀ cls n rest, cp = os_path_join TRAIN_DIR cls →
     balance_classes ((cls, n) :: rest) tape w = (Raised e, w)).
Proof.
  intros Hd e.
  assert (os_listdir cp w = (Raised e, w)) as Hls.
  { unfold os_listdir, e. by destruct (fs w !! cp) as [[b|]|]. }
  split.
  - unfold augment_class_images, bind. by rewrite Hls.
  - intros cls n rest ->. unfold balance_classes, dict_keys.
    rewrite fmap_cons. cbn [for_acc fst]. unfold bind at 1, balance_one, bind.
    by rewrite Hls.
Qed.



End Augmentation_more.

Lemma augmentation_needs_a_directory_witness :
  augment_class_images (H := sample_lib) (os_path_join TRAIN_DIR "bird") 5
    pair_tape pair_world = (Raised FileNotFoundError, pair_world).
Proof.
  refine (proj1 (augmentation_needs_a_directory (H := sample_lib)
                   (os_path_join TRAIN_DIR "bird") 5 pair_tape pair_world _)).
  evaluate.
Defined.


(** ** More on step 5 *)

Lemma for_acc_preserves {A B} (R : relation world) `{!PreOrder R}
    (l : list A) (body : B → A → M B) :
  (∀ b x w, R w (body b x w).2) → ∀ b w, R w (for_acc l body b w).2.
Proof.
  intros Hbody. induction l as [|x l IH]; intros b w; simpl.
  - reflexivity.
  - unfold bind. pose proof (Hbody b x w) as Hx.
    destruct (body b x w) as [[b'|e|] w1]; simpl in *; [|done..].
    etrans; [exact Hx|apply IH].
Qed.

Global Instance only_short_classes_augmented_preorder :
  PreOrder (λ w w', only_short_classes_augmented (fs w) (fs w')).
Proof.
  split.
  - intros w q. by left.
  - intros w1 w2 w3 H12 H23 q.
    destruct (H23 q) as [Heq|(cls & name & b & Hlen & Hq & Hb)].
    + rewrite Heq. apply H12.
    + right. exists cls, name, b. split_and!; [|done..].
      eapply Nat.le_lt_trans; [|exact Hlen].
      apply children_length_mono. intros n Hn.
      destruct (H12 (os_path_join (os_path_join TRAIN_DIR cls) n))
        as [Hn'|(? & ? & ? & _ & _ & Hn')]; by rewrite Hn'.
Qed.

Global Instance all_named_preorder :
  PreOrder (λ w w', ∀ cp, all_named (fs w) cp → all_named (fs w') cp).
Proof. split; [by intros w cp|]. intros w1 w2 w3 H12 H23 cp ?. by apply H23, H12. Qed.

Lemma only_augmented_other_dir (cp cp' : path) (images : list string)
    (fs1 fs2 : filesystem) :
  only_augmented cp images fs1 fs2 → cp' ≠ cp →
  children fs2 cp' = children fs1 cp'.
Proof.
  intros H12 Hne. apply children_ext. intros n.
  destruct (H12 (os_path_join cp' n)) as [?|(name & b & _ & Hq & _)]; [done|].
  by apply os_path_join_inj in Hq as [? _].
Qed.

Lemma only_train_augmented_class_names (fs1 fs2 : filesystem) :
  only_train_augmented fs1 fs2 →
  class_names fs2 TRAIN_DIR = class_names fs1 TRAIN_DIR.
Proof.
  intros H12.
  assert (∀ n, fs2 !! os_path_join TRAIN_DIR n = fs1 !! os_path_join TRAIN_DIR n)
    as Heq.
  { intros n. destruct (H12 (os_path_join TRAIN_DIR n))
      as [?|(cls & name & b & _ & Hq & _)]; [done|].
    apply os_path_join_inj in Hq as [Hq _].
    by destruct (os_path_join_ne_self TRAIN_DIR cls). }
  unfold class_names. rewrite (children_ext fs2 fs1 TRAIN_DIR) by done.
  f_equal. apply list_filter_iff. intros d. by rewrite Heq.
Qed.

(** *** The suffix of an augmented name *)

Lemma lower_app a b : Str.lower (a +:+ b) = Str.lower a +:+ Str.lower b.
Proof.
  induction a as [|c a IH]; [done|].
  change (Str.lower (String c (a +:+ b)) =
          String (Str.lower_ascii c) (Str.lower a +:+ Str.lower b)).
  simpl. by rewrite IH.
Qed.

Lemma string_length_app a b :
  String.length (a +:+ b) = String.length a + String.length b.
Proof.
  induction a as [|c a IH]; [done|].
  change (String.length (String c (a +:+ b)) = S (String.length a) + String.length b).
  simpl. by rewrite IH.
Qed.

Lemma substring_skip pre m k s :
  String.substring (String.length pre + m) k (pre +:+ s) = String.substring m k s.
Proof.
  induction pre as [|c pre IH]; [done|].
  change (String.substring (S (String.length pre + m)) k (String c (pre +:+ s))
          = String.substring m k s).
  simpl. apply IH.
Qed.

Lemma endswith_app pre s suffixes :
  Str.endswith s suffixes = true → Str.endswith (pre +:+ s) suffixes = true.
Proof.
  unfold Str.endswith. rewrite !existsb_exists.
  intros (suf & Hin & Hs). exists suf. split; [done|].
  unfold Str.endswith1 in *. apply andb_true_iff in Hs as [Hle Hs].
  apply Nat.leb_le in Hle. rewrite string_length_app.
  apply andb_true_iff. split; [apply Nat.leb_le; lia|].
  replace (String.length pre + String.length s - String.length suf)
    with (String.length pre + (String.length s - String.length suf)) by lia.
  by rewrite substring_skip.
Qed.

Lemma aug_name_keeps_suffix n src :
  Str.endswith (Str.lower src) image_suffixes = true →
  Str.endswith (Str.lower (aug_name n src)) image_suffixes = true.
Proof.
  intros Hsrc. unfold aug_name. rewrite !lower_app.
  by do 3 apply endswith_app.
Qed.

Section Balance_more.
Context `{ImageLib}.

Lemma balance_one_only_augmented tape cls w :
  only_augmented (os_path_join TRAIN_DIR cls)
    (children (fs w) (os_path_join TRAIN_DIR cls)) (fs w)
    (fs (balance_one tape cls w).2).
Proof.
  unfold balance_one, bind.
  pose proof (os_listdir_frame (os_path_join TRAIN_DIR cls) w) as Hfr.
  destruct (os_listdir (os_path_join TRAIN_DIR cls) w) as [[l|e|] w1];
    simpl in Hfr; subst w1; [|apply only_augmented_refl..].
  case_bool_decide; [|apply only_augmented_refl].
  apply augment_class_images_frame.
Qed.

Lemma balance_one_short tape cls w :
  only_short_classes_augmented (fs w) (fs (balance_one tape cls w).2).
Proof.
  unfold balance_one, bind.
  destruct (os_listdir (os_path_join TRAIN_DIR cls) w) as [[l|e|] w1] eqn:Hls.
  - apply os_listdir_Return in Hls as (Hd & -> & ->).
    case_bool_decide as Hlt; [|by left]. intros q.
    destruct (augment_class_images_frame (os_path_join TRAIN_DIR cls)
                TARGET_COUNT tape w q) as [?|(name & b & _ & Hq & Hb & _)];
      [by left|right].
    by exists cls, name, b.
  - pose proof (os_listdir_frame (os_path_join TRAIN_DIR cls) w) as Hfr.
    rewrite Hls in Hfr. simpl in *. subst w1. by left.
  - pose proof (os_listdir_frame (os_path_join TRAIN_DIR cls) w) as Hfr.
    rewrite Hls in Hfr. simpl in *. subst w1. by left.
Qed.

(** X13. However step 5 ends, a training class directory that listed the
    target number of entries or more when the step began is as it was: no
    file of it is touched and it lists the same names. *)
Theorem balancing_leaves_full_classes (train_stats : list (string * nat))
    (tape : list draw) (w : world) (cls : string) :
  TARGET_COUNT ≤ length (children (fs w) (os_path_join TRAIN_DIR cls)) →
  let w' := (balance_classes train_stats tape w).2 in
  (∀ f, fs w' !! os_path_join (os_path_join TRAIN_DIR cls) f =
        fs w !! os_path_join (os_path_join TRAIN_DIR cls) f) ∧
  children (fs w') (os_path_join TRAIN_DIR cls) =
  children (fs w) (os_path_join TRAIN_DIR cls).
Proof.
  intros Hfull w'.
  assert (only_short_classes_augmented (fs w) (fs w')) as Hfr.
  { apply (for_acc_preserves
             (λ w w', only_short_classes_augmented (fs w) (fs w'))).
    apply balance_one_short. }
  assert (∀ f, fs w' !! os_path_join (os_path_join TRAIN_DIR cls) f =
               fs w !! os_path_join (os_path_join TRAIN_DIR cls) f) as Heq.
  { intros f. destruct (Hfr (os_path_join (os_path_join TRAIN_DIR cls) f))
      as [?|(cls' & name & b & Hlen & Hq & _)]; [done|].
    apply os_path_join_inj in Hq as [Hq _].
    apply os_path_join_inj in Hq as [_ <-]. lia. }
  split; [done|]. by apply children_ext.
Qed.

Lemma balance_one_nonempty tape cls w tape' w' :
  balance_one tape cls w = (Return tape', w') →
  children (fs w) (os_path_join TRAIN_DIR cls) ≠ [].
Proof.
  intros Hrun Hnil. unfold balance_one in Hrun.
  apply bind_Return_inv in Hrun as (l & w1 & Hl & Hrun).
  apply os_listdir_Return in Hl as (Hd & -> & ->).
  rewrite Hnil in Hrun. cbn [length] in Hrun.
  rewrite bool_decide_eq_true_2 in Hrun by (unfold TARGET_COUNT; lia).
  rewrite augment_class_images_unfold, augment_loop_unfold in Hrun by done.
  cbn [fs] in Hrun. rewrite Hnil in Hrun. cbn [length] in Hrun.
  rewrite bool_decide_eq_true_2 in Hrun by (unfold TARGET_COUNT; lia).
  simplify_eq.
Qed.

Lemma balance_loop_nonempty classes tape w tape' w' :
  for_acc classes balance_one tape w = (Return tape', w') →
  ∀ c, c ∈ classes →
    fs w !! os_path_join TRAIN_DIR c = Some Dir ∧
    children (fs w) (os_path_join TRAIN_DIR c) ≠ [].
Proof.
  revert tape w. induction classes as [|c0 classes IH]; intros tape w Hrun c Hc.
  { by apply elem_of_nil in Hc. }
  simpl in Hrun. apply bind_Return_inv in Hrun as (t & w1 & Hone & Hrest).
  pose proof (balance_one_only_augmented tape c0 w) as Hfr.
  rewrite Hone in Hfr. simpl in Hfr.
  pose proof (balance_one_nonempty _ _ _ _ _ Hone) as Hhead.
  pose proof (balance_one_Return _ _ _ _ _ Hone) as [Hd0 _].
  destruct (decide (c = c0)) as [->|Hne]; [done|].
  apply elem_of_cons in Hc as [?|Hc]; [done|].
  destruct (IH _ _ Hrest c Hc) as [Hd Hn]. split.
  - by apply (proj1 (only_augmented_Dir _ _ _ _ _ Hfr)).
  - rewrite <-(only_augmented_other_dir _ _ _ _ _ Hfr); [done|].
    intros Heq. by apply os_path_join_inj in Heq as [_ ?].
Qed.

(** X14. Step 5 completes only when every class of the counts it is given
    has a directory that lists at least one entry when the step begins.
    A class directory that is empty, as the cleanup leaves one whose files
    all failed its test, keeps the step from completing. *)
Theorem balancing_needs_nonempty_classes (train_stats : list (string * nat))
    (tape tape' : list draw) (w w' : world) :
  balance_classes train_stats tape w = (Return tape', w') →
  ∀ cls, cls ∈ dict_keys train_stats →
    fs w !! os_path_join TRAIN_DIR cls = Some Dir ∧
    children (fs w) (os_path_join TRAIN_DIR cls) ≠ [].
Proof. apply balance_loop_nonempty. Qed.

Lemma only_augmented_named (cp : path) (fs1 fs2 : filesystem) :
  only_augmented cp (children fs1 cp) fs1 fs2 →
  ∀ cp', all_named fs1 cp' → all_named fs2 cp'.
Proof.
  intros H12 cp' Hnamed f Hf.
  destruct (H12 (os_path_join cp' f))
    as [Heq|(name & b & (n & src & _ & Hsrc & ->) & Hq & _)].
  - apply Hnamed. by rewrite <-Heq.
  - apply os_path_join_inj in Hq as [-> ->].
    apply aug_name_keeps_suffix, Hnamed. by apply elem_of_children.
Qed.

Lemma balance_loop_named classes tape w cp :
  all_named (fs w) cp →
  all_named (fs (for_acc classes balance_one tape w).2) cp.
Proof.
  revert cp.
  apply (for_acc_preserves
           (λ w w', ∀ cp, all_named (fs w) cp → all_named (fs w') cp)).
  intros t cls w0. eapply only_augmented_named, balance_one_only_augmented.
Qed.

Lemma all_kept_named (fs0 : filesystem) cp : all_kept fs0 cp → all_named fs0 cp.
Proof.
  intros Hk f [x Hx]. destruct (Hk f x Hx) as (b & _ & Hkb).
  by apply andb_true_iff in Hkb as [? _].
Qed.

End Balance_more.

(** X16. The augmented copy of a file whose name passes the suffix test of
    the counting passes it too: the new name ends in the name of the
    source, so the statistics count every copy of a counted file. *)
Theorem new_name_keeps_suffix (d : draw) (img_name : string) :
  Str.endswith (Str.lower img_name) image_suffixes = true →
  Str.endswith (Str.lower (new_name d img_name)) image_suffixes = true.
Proof. apply aug_name_keeps_suffix. Qed.

Lemma new_name_keeps_suffix_witness :
  Str.endswith
    (Str.lower (new_name (Draw 0 7 (Saves "X")) "Photo.JPG"))
    image_suffixes = true.
Proof. apply new_name_keeps_suffix. evaluate. Defined.

Section Rounds.
Context `{ImageLib}.

Lemma augment_once_accounts images cp d w :
  images ≠ [] →
  ∃ w1 lines, augment_once images cp d w = (Return tt, w1) ∧
    console w1 = console w ++ lines ∧
    Forall (λ e, ∃ src, src ∈ images ∧ e = ErrorAugmenting src) lines ∧
    length lines + length (children (fs w1) cp)
      ≤ S (length (children (fs w) cp)).
Proof.
  intros Hne.
  destruct (augment_try_cases cp (random_choice images d) d w)
    as [[e Hr]|[(b & old & part & Hsrc & Hdec & Hwr & Hold & Hr)
               |(b & nb & Hsrc & Hdec & Hwr & Hdst & Hr)]].
  - eexists _, [_]. split; [by eapply augment_once_caught|]. simpl.
    split_and!; [done| |lia].
    apply Forall_singleton. eexists. split; [|done].
    by apply random_choice_elem_of.
  - eexists _, [_]. split; [by eapply augment_once_caught|]. cbn [fs console].
    split_and!; [done| |].
    + apply Forall_singleton. eexists. split; [|done].
      by apply random_choice_elem_of.
    + rewrite !length_children, subdir_insert_child.
      rewrite map_size_insert_Some; [simpl; lia|].
      rewrite lookup_subdir, Hold. by eexists.
  - eexists _, []. split; [by apply augment_once_saved|]. simpl.
    split_and!; [by rewrite app_nil_r|by apply Forall_nil|].
    rewrite !length_children, subdir_insert_child.
    destruct (subdir (fs w) cp !! new_name d (random_choice images d)) eqn:Hn.
    + rewrite map_size_insert_Some by done. lia.
    + rewrite map_size_insert_None by done. lia.
Qed.

Lemma augment_loop_accounts images cp target tape w tape' w' :
  images ≠ [] → fs w !! cp = Some Dir →
  augment_loop images cp target tape w = (Return tape', w') →
  ∃ used lines,
    tape = used ++ tape' ∧
    console w' = console w ++ lines ∧
    Forall (λ e, ∃ src, src ∈ images ∧ e = ErrorAugmenting src) lines ∧
    length lines + length (children (fs w') cp)
      ≤ length used + length (children (fs w) cp).
Proof.
  intros Hne. revert w. induction tape as [|d tape IH]; intros w Hd Hrun.
  - rewrite augment_loop_unfold in Hrun by done.
    case_bool_decide; [by destruct images|]. simplify_eq.
    exists [], []. split_and!; [done|by rewrite app_nil_r|by apply Forall_nil|].
    simpl. lia.
  - destruct (decide (length (children (fs w) cp) < target)) as [Hlt|Hge].
    + rewrite augment_loop_step in Hrun by done.
      destruct (augment_once_accounts images cp d w Hne)
        as (w1 & lines1 & Hone & Hcon1 & Hall1 & Hacc1).
      rewrite Hone in Hrun. cbn [snd] in Hrun.
      assert (fs w1 !! cp = Some Dir) as Hd1.
      { destruct (augment_once_spec images cp d w Hne) as (w1' & Hone' & Hfr & _).
        rewrite Hone in Hone'. simplify_eq.
        by apply (only_augmented_Dir cp images (fs w)). }
      destruct (IH w1 Hd1 Hrun) as (used & lines & -> & Hcon & Hall & Hacc).
      exists (d :: used), (lines1 ++ lines).
      split_and!; [done|by rewrite Hcon, Hcon1, <-app_assoc|by apply Forall_app|].
      rewrite length_app. simpl. lia.
    + rewrite augment_loop_exit in Hrun by (done || lia). simplify_eq.
      exists [], []. split_and!; [done|by rewrite app_nil_r|by apply Forall_nil|].
      simpl. lia.
Qed.

(** X17. A call of the augmentation that started below the target and
    returned has printed its opening line, with the count it found, and
    after it nothing but error lines, each naming a file of the first
    listing; and it has read at least one draw for every file it was short
    of and one more for every error line. *)
Theorem augmentation_accounts_for_its_draws (cp : path) (target : nat)
    (tape tape' : list draw) (w w' : world) :
  length (children (fs w) cp) < target →
  augment_class_images cp target tape w = (Return tape', w') →
  ∃ used lines,
    tape = used ++ tape' ∧
    console w' =
      console w ++ Augmenting cp (length (children (fs w) cp)) target :: lines ∧
    Forall (λ e, ∃ src, src ∈ children (fs w) cp ∧ e = ErrorAugmenting src)
           lines ∧
    (target - length (children (fs w) cp)) + length lines ≤ length used.
Proof.
  intros Hlt Hrun.
  pose proof Hrun as (Hd & _ & Hlen & _)%augment_class_images_Return.
  rewrite augment_class_images_unfold in Hrun by done.
  destruct (children (fs w) cp) as [|i images] eqn:Himg.
  { rewrite augment_loop_unfold in Hrun by done. cbn [fs] in Hrun.
    rewrite Himg in Hrun. cbn [length] in *.
    rewrite bool_decide_eq_true_2 in Hrun by lia. simplify_eq. }
  apply augment_loop_accounts in Hrun
    as (used & lines & -> & Hcon & Hall & Hacc); [|done..].
  exists used, lines. cbn [fs console] in *. rewrite Himg in Hacc.
  split_and!; [done|by rewrite Hcon, <-app_assoc|done|lia].
Qed.

End Rounds.

Lemma augmentation_accounts_for_its_draws_witness :
  let cp := os_path_join TRAIN_DIR "cat" in
  let run := augment_class_images (H := sample_lib) cp 4 pair_tape pair_world in
  ∃ (used : list draw) (lines : list event),
    pair_tape = used ++ [Draw 0 2 (Saves "unused")] ∧
    (4 - length (children (fs pair_world) cp)) + length lines ≤ length used.
Proof.
  intros cp run.
  destruct (augmentation_accounts_for_its_draws (H := sample_lib) cp 4 pair_tape
              [Draw 0 2 (Saves "unused")] pair_world run.2)
    as (used & lines & Hused & _ & _ & Hacc).
  - evaluate.
  - evaluate_run.
  - by exists used, lines.
Defined.

Lemma balancing_leaves_full_classes_witness :
  let stats := count_table (fs mixed_world) TRAIN_DIR in
  let w' := (balance_classes (H := sample_lib) stats pair_tape mixed_world).2 in
  children (fs w') (os_path_join TRAIN_DIR "dog") =
  children (fs mixed_world) (os_path_join TRAIN_DIR "dog").
Proof.
  intros stats w'.
  refine (proj2 (balancing_leaves_full_classes (H := sample_lib) stats pair_tape
                   mixed_world "dog" _)).
  evaluate.
Defined.

Lemma balancing_needs_nonempty_classes_witness :
  children (fs crowded_world) (os_path_join TRAIN_DIR "cat") ≠ [].
Proof.
  refine (proj2 (balancing_needs_nonempty_classes (H := sample_lib)
                   (count_table (fs crowded_world) TRAIN_DIR) crowded_tape []
                   crowded_world
                   (balance_classes (H := sample_lib)
                      (count_table (fs crowded_world) TRAIN_DIR) crowded_tape
                      crowded_world).2 _ "cat" _)).
  - evaluate_run.
  - evaluate_decision.
Defined.

(** ** Step 1 as a whole *)

Section Step1.
Context `{ImageLib}.

Lemma cleanup_Return base w w' :
  remove_corrupted_and_non_images base w = (Return tt, w') →
  only_rejects_removed (fs w) (fs w') ∧
  ∀ cls, fs w' !! os_path_join base cls = Some Dir →
         all_kept (fs w') (os_path_join base cls).
Proof.
  intros Hrun. unfold remove_corrupted_and_non_images in Hrun.
  apply bind_Return_inv in Hrun as ([] & w0 & Hprint & Hrun).
  unfold print in Hprint. simplify_eq.
  apply bind_Return_inv in Hrun as (classes & w1 & Hcls & Hrun).
  apply list_classes_Return in Hcls as (Hb & -> & ->). simpl in *.
  apply clean_classes_Return in Hrun as [Hrm Hkept]. simpl in *.
  split; [done|]. intros cls Hd. apply Hkept, elem_of_class_names.
  by apply (only_rejects_removed_Some (fs w) (fs w')).
Qed.

Lemma clean_all_splits_Return w w' :
  clean_all_splits w = (Return tt, w') →
  only_rejects_removed (fs w) (fs w') ∧
  ∀ base cls, base ∈ [TRAIN_DIR; VAL_DIR; TEST_DIR] →
    fs w' !! os_path_join base cls = Some Dir →
    all_kept (fs w') (os_path_join base cls).
Proof.
  intros Hrun. unfold clean_all_splits in Hrun.
  apply bind_Return_inv in Hrun as ([] & w1 & Htrain & Hrun).
  apply bind_Return_inv in Hrun as ([] & w2 & Hval & Htest).
  apply cleanup_Return in Htrain as [H01 Htrain].
  apply cleanup_Return in Hval as [H12 Hval].
  apply cleanup_Return in Htest as [H23 Htest].
  split.
  { apply (only_rejects_removed_trans _ (fs w2)); [|done].
    by apply (only_rejects_removed_trans _ (fs w1)). }
  intros base cls Hbase Hd.
  repeat (apply elem_of_cons in Hbase as [->|Hbase]).
  - apply (all_kept_mono (fs w2)); [done|].
    apply (all_kept_mono (fs w1)); [done|].
    apply Htrain.
    apply (only_rejects_removed_Some (fs w1) (fs w2)); [done|].
    by apply (only_rejects_removed_Some (fs w2) (fs w')).
  - apply (all_kept_mono (fs w2)); [done|].
    apply Hval. by apply (only_rejects_removed_Some (fs w2) (fs w')).
  - by apply Htest.
  - by apply elem_of_nil in Hbase.
Qed.

(** X18. When the three cleanups of step 1 have completed, all three
    splits are clean at once: in the training, the validation and the test
    split alike, every entry of every class directory is a file that passes
    the suffix test and the verification.  A later cleanup does not undo an
    earlier one, and all that the step has done to the file system is to
    remove files that fail the test. *)
Theorem clean_all_splits_cleans_all (w w' : world) :
  clean_all_splits w = (Return tt, w') →
  only_rejects_removed (fs w) (fs w') ∧
  ∀ base, base ∈ [TRAIN_DIR; VAL_DIR; TEST_DIR] →
    ∀ cls f x,
      fs w' !! os_path_join base cls = Some Dir →
      fs w' !! os_path_join (os_path_join base cls) f = Some x →
      ∃ b, x = File b ∧
           Str.endswith (Str.lower f) image_suffixes = true ∧
           img_verify b = true.
Proof.
  intros [Hrm Hall]%clean_all_splits_Return. split; [done|].
  intros base Hbase cls f x Hd Hx.
  destruct (Hall base cls Hbase Hd f x Hx) as (b & -> & Hk).
  exists b. split; [done|]. by apply andb_true_iff in Hk.
Qed.

(** X15. The run as a whole does what it is for.  Let step 1 complete, let
    the steps between it and step 5 leave the file system as step 1 left
    it (they read and print), and let step 5, run on the counts of the
    training split, complete.  Then the recount of step 6 has the classes
    of the first count, and for every one of them a count of at least the
    target that is the number of entries of its directory: the augmented
    copies bear the suffix of their sources, so the recount sees them
    all. *)
Theorem recount_after_balancing (w0 w1 w1' w2 : world)
    (train_stats : list (string * nat)) (tape tape' : list draw) :
  clean_all_splits w0 = (Return tt, w1) →
  fs w1' = fs w1 →
  (count_images_in_classes TRAIN_DIR w1').1 = Return train_stats →
  balance_classes train_stats tape w1' = (Return tape', w2) →
  ∃ train_stats_post,
    (count_images_in_classes TRAIN_DIR w2).1 = Return train_stats_post ∧
    dict_keys train_stats_post = dict_keys train_stats ∧
    ∀ cls, cls ∈ dict_keys train_stats →
      ∃ n, dict_get train_stats_post cls = Some n ∧
           TARGET_COUNT ≤ n ∧
           n = length (children (fs w2) (os_path_join TRAIN_DIR cls)).
Proof.
  intros [_ Hkept]%clean_all_splits_Return Hsame Hstats Hbal.
  rewrite <-Hsame in Hkept. clear w0 w1 Hsame.
  (* the first count *)
  destruct (count_images_in_classes TRAIN_DIR w1') as [r w] eqn:Hcount.
  simpl in Hstats. subst r.
  apply count_images_Return in Hcount as (Hb1 & -> & ->).
  (* step 5 *)
  pose proof (balance_loop_frame (dict_keys (count_table (fs w1') TRAIN_DIR))
                tape w1') as Hfr.
  rewrite <-balance_classes_for_acc, Hbal in Hfr. simpl in Hfr.
  pose proof (balance_loop_Return _ _ _ _ _ Hbal) as Hlen.
  assert (fs w2 !! TRAIN_DIR = Some Dir) as Hb2
    by (by apply (only_train_augmented_Dir (fs w1'))).
  exists (count_table (fs w2) TRAIN_DIR).
  rewrite count_images_Dir by done.
  rewrite !dict_keys_count_table in *.
  rewrite (only_train_augmented_class_names (fs w1') (fs w2)) by done.
  split_and!; [done..|].
  intros cls Hcls. exists (length (children (fs w2) (os_path_join TRAIN_DIR cls))).
  split_and!; [|by apply Hlen|done].
  rewrite dict_get_count_table.
  rewrite decide_True
    by (apply (only_train_augmented_Dir (fs w1')); [done|];
        by apply elem_of_class_names).
  f_equal. apply image_count_all. intros f Hf%elem_of_children.
  pose proof (balance_loop_named (dict_keys (count_table (fs w1') TRAIN_DIR))
                tape w1' (os_path_join TRAIN_DIR cls)) as Hnamed.
  rewrite <-balance_classes_for_acc, Hbal in Hnamed. simpl in Hnamed.
  apply Hnamed; [|done].
  apply all_kept_named, Hkept; [by left|].
  by apply elem_of_class_names.
Qed.

End Step1.

Lemma clean_all_splits_cleans_all_witness :
  let run := clean_all_splits (H := sample_lib) three_split_world in
  fs run.2 !! (VAL_DIR ++ ["cat"; "v.png"]) = None ∧
  fs run.2 !! (VAL_DIR ++ ["cat"; "w.png"]) = Some (File "W").
Proof.
  intros run.
  destruct (clean_all_splits_cleans_all (H := sample_lib) three_split_world
              run.2 ltac:(evaluate_run)) as [_ Hclean].
  split; [|evaluate].
  destruct (fs run.2 !! (VAL_DIR ++ ["cat"; "v.png"])) as [x|] eqn:Hx; [|done].
  destruct (Hclean VAL_DIR ltac:(by right; left) "cat" "v.png" x
              ltac:(evaluate) Hx) as (b & -> & _ & Hb).
  vm_compute in Hx. simplify_eq.
Defined.

Lemma recount_after_balancing_witness :
  let cleaned := clean_all_splits (H := sample_lib) crowded_dataset in
  let stats := count_table (fs cleaned.2) TRAIN_DIR in
  let balanced := balance_classes (H := sample_lib) stats crowded_tape
                    cleaned.2 in
  ∃ post, (count_images_in_classes TRAIN_DIR balanced.2).1 = Return post ∧
          ∃ n, dict_get post "cat" = Some n ∧ TARGET_COUNT ≤ n.
Proof.
  intros cleaned stats balanced.
  destruct (recount_after_balancing (H := sample_lib) crowded_dataset cleaned.2
              cleaned.2 balanced.2 stats crowded_tape [])
    as (post & Hpost & _ & Hval).
  - evaluate_run.
  - reflexivity.
  - evaluate.
  - evaluate_run.
  - exists post. split; [done|].
    destruct (Hval "cat") as (n & Hn & Hle & _); [evaluate_decision|].
    exists n. split; assumption.
Defined.
